(** * The coordinate pipeline of [lib/models/model.py]

    [Model.forward] turns the raw outputs of the regression head into a
    root-relative mesh, root-relative joints and the 2D projection of the
    joints.  The development embeds [get_camera_trans], [get_coord],
    [forward] and [__init__] over an interface of scalar arithmetic, so
    that what depends only on the structure of the code is stated for
    every arithmetic, and what depends on the numbers is stated over
    IEEE single precision (what a [torch.FloatTensor] holds), with the
    inner product of the batched matrix product left open.

    The second half of the file embeds the functions around the model:
    [transfer_backbone] over Python strings and ordered dictionaries,
    [init_weights] and its application to a tree of modules over a
    state of module parameters and random number generator, and
    [get_model] over the constructors of the backbone and head
    classes.  The rotation converter [rot6d_to_axis_angle] is not part
    of this file of the repository; the last section models it from
    its design, over the real numbers. *)

From Stdlib Require Import List ZArith Bool Lia SpecFloat.
From Stdlib Require Import Reals Lra RNsatz.
Import ListNotations.
From Stdlib Require String Ascii.
Import String.StringSyntax.
Delimit Scope string_scope with string.

Set Implicit Arguments.

(** ** Exceptions *)

Inductive exn : Type :=
| ZeroDivisionError   (* Python: division of a number by zero *)
| ValueError          (* math.sqrt of a negative number *)
| IndexError          (* index out of range for a dimension *)
| RuntimeError        (* torch: shapes that do not match or broadcast *)
| NumericalDegeneracy (* normalisation of a zero vector *).

Inductive Result (A : Type) : Type :=
| Ok (a : A)
| Raise (e : exn).

Arguments Ok {A} a.
Arguments Raise {A} e.

Definition bind {A B} (c : Result A) (k : A -> Result B) : Result B :=
  match c with
  | Ok a => k a
  | Raise e => Raise e
  end.

Notation "x <- c ;; k" := (bind c (fun x => k))
  (at level 61, c at next level, right associativity).
Notation "' p <- c ;; k" := (bind c (fun p => k))
  (at level 61, p pattern, c at next level, right associativity).

Fixpoint mapM {A B} (f : A -> Result B) (l : list A) : Result (list B) :=
  match l with
  | [] => Ok []
  | a :: l' => b <- f a ;; bs <- mapM f l' ;; Ok (b :: bs)
  end.

Fixpoint mapM2 {A B C} (f : A -> B -> Result C) (l1 : list A) (l2 : list B)
  : Result (list C) :=
  match l1, l2 with
  | a :: l1', b :: l2' => c <- f a b ;; cs <- mapM2 f l1' l2' ;; Ok (c :: cs)
  | _, _ => Ok []
  end.

(** ** Tensors as nested lists *)

(** The last dimension of the coordinate tensors has size 3. *)
Record V3 (A : Type) : Type := mk3 { c0 : A; c1 : A; c2 : A }.
Arguments mk3 {A} _ _ _.
Arguments c0 {A} _.
Arguments c1 {A} _.
Arguments c2 {A} _.

(** torch broadcasting along one dimension: sizes must agree, or one of
    them is 1 and its only entry is reused. *)
Definition broadcast {A B C} (f : A -> B -> Result C) (l1 : list A) (l2 : list B)
  : Result (list C) :=
  if Nat.eqb (length l1) (length l2) then mapM2 f l1 l2
  else match l1, l2 with
       | [a], _ => mapM (f a) l2
       | _, [b] => mapM (fun a => f a b) l1
       | _, _ => Raise RuntimeError
       end.

(** Python indexing of a dimension of size [n] with index [i]. *)
Definition norm_index (n : nat) (i : Z) : Result nat :=
  if (0 <=? i)%Z then
    if (i <? Z.of_nat n)%Z then Ok (Z.to_nat i) else Raise IndexError
  else
    if (0 <=? i + Z.of_nat n)%Z then Ok (Z.to_nat (i + Z.of_nat n))
    else Raise IndexError.

(** [t[:, i, None, :]] on a tensor of shape (B, n, _): the result has
    shape (B, 1, _). *)
Definition index_dim1 {A} (n : nat) (i : Z) (t : list (list A))
  : Result (list (list A)) :=
  k <- norm_index n i ;;
  mapM (fun row => match nth_error row k with
                   | Some p => Ok [p]
                   | None => Raise IndexError
                   end) t.

(** Row-major reshape to [b] rows of width [w]. *)
Fixpoint take_rows {A} (b w : nat) (l : list A) : list (list A) :=
  match b with
  | O => []
  | S b' => firstn w l :: take_rows b' w (skipn w l)
  end.

(** [t.reshape(-1, 6)] *)
Definition reshape_m1_6 {A} (t : list (list A)) : Result (list (list A)) :=
  let flat := concat t in
  if Nat.eqb (length flat mod 6) 0
  then Ok (take_rows (length flat / 6) 6 flat)
  else Raise RuntimeError.

(** [t.reshape(batch_size, -1)] *)
Definition reshape_b_m1 {A} (batch_size : nat) (t : list (list A))
  : Result (list (list A)) :=
  let flat := concat t in
  match batch_size with
  | O => Raise RuntimeError
  | S _ =>
      if Nat.eqb (length flat mod batch_size) 0
      then Ok (take_rows batch_size (length flat / batch_size) flat)
      else Raise RuntimeError
  end.

(** ** Scalar arithmetic

    [pyfloat] is the type of the numbers of the configuration and of the
    literal [1e-4]: Python floats, on which [math.sqrt] and the
    arithmetic of [k_value] run.  [elt] is the element type of the
    tensors.  [as_elt] is the conversion that happens when a Python
    number is put into a tensor or combined with one.  [t_dot] is the
    inner product by which the batched matrix product of the tensor
    library computes one entry from a row and a column: which products
    are fused with the additions and in which order the terms are added
    is the library's choice, and it is left open here. *)

Class Scalar : Type := {
  pyfloat : Type;
  elt : Type;
  py_mul : pyfloat -> pyfloat -> pyfloat;
  py_div : pyfloat -> pyfloat -> Result pyfloat;
  math_sqrt : pyfloat -> Result pyfloat;
  lit_1e_4 : pyfloat;
  as_elt : pyfloat -> elt;
  t_add : elt -> elt -> elt;
  t_sub : elt -> elt -> elt;
  t_mul : elt -> elt -> elt;
  t_div : elt -> elt -> elt;
  t_dot : list elt -> list elt -> elt;
  t_sigmoid : elt -> elt
}.

(** ** Configuration ([core.config.cfg]) and body model ([human_models.smpl]) *)

Record Config (P : Type) : Type := {
  focal : P * P;             (* cfg.CAMERA.focal *)
  princpt : P * P;           (* cfg.CAMERA.princpt *)
  camera_3d_size : P;        (* cfg.CAMERA.camera_3d_size *)
  input_img_shape : P * P;   (* cfg.MODEL.input_img_shape *)
  freeze_backbone : bool     (* cfg.TRAIN.freeze_backbone *)
}.

Inductive module_ref : Type := Backbone | Head.

Section Pipeline.
Context {S : Scalar}.

Definition vec := V3 elt.
Definition tensor2 := list (list elt).  (* shape (B, n) *)
Definition tensor3 := list (list vec).  (* shape (B, n, 3) *)

Definition v3_sub (p q : vec) : vec :=
  mk3 (t_sub (c0 p) (c0 q)) (t_sub (c1 p) (c1 q)) (t_sub (c2 p) (c2 q)).

(** Elementwise binary operation on tensors of shape (B, n), with
    broadcasting on both dimensions. *)
Definition tensor2_op (f : elt -> elt -> elt) (t1 t2 : tensor2) : Result tensor2 :=
  broadcast (broadcast (fun a b => Ok (f a b))) t1 t2.

(** The same on tensors of shape (B, n, 3). *)
Definition tensor3_op (f : vec -> vec -> vec) (t1 t2 : tensor3) : Result tensor3 :=
  broadcast (broadcast (fun p q => Ok (f p q))) t1 t2.

(** One row of the regressor applied to a mesh: for each of the three
    coordinates, the inner product of the row with that coordinate of
    the vertices. *)
Definition regress (row : list elt) (mesh : list vec) : Result vec :=
  if Nat.eqb (length row) (length mesh)
  then Ok (mk3 (t_dot row (map c0 mesh))
               (t_dot row (map c1 mesh))
               (t_dot row (map c2 mesh)))
  else Raise RuntimeError.

Definition matmul (m : list (list elt)) (mesh : list vec) : Result (list vec) :=
  mapM (fun row => regress row mesh) m.

(** [torch.bmm]: the batch sizes must be equal. *)
Definition bmm (ms : list (list (list elt))) (ts : tensor3) : Result tensor3 :=
  if Nat.eqb (length ms) (length ts) then mapM2 matmul ms ts
  else Raise RuntimeError.

(** The model: configuration, body model data and the external callables. *)
Variable Img Feat : Type.

Record Model : Type := {
  backbone : list Img -> Feat;
  head : Feat -> tensor2 * tensor2 * list vec;
  smpl_layer : tensor2 -> tensor2 -> tensor2 -> Result tensor3;
  trainable_modules : list module_ref
}.

Variable cfg : Config pyfloat.
Variable joint_regressor : list (list elt).  (* smpl.joint_regressor, (J, V) *)
Variable root_joint_idx : Z.                 (* smpl.root_joint_idx *)
Variable smpl_layer_neutral : tensor2 -> tensor2 -> tensor2 -> Result tensor3.
Variable rot6d_to_axis_angle : tensor2 -> Result tensor2.

(** [Model.__init__] *)
Definition Model_init (backbone : list Img -> Feat)
    (head : Feat -> tensor2 * tensor2 * list vec) : Result Model :=
  Ok {| backbone := backbone;
        head := head;
        smpl_layer := smpl_layer_neutral;
        trainable_modules :=
          if freeze_backbone cfg then [Head] else [Backbone; Head] |}.

(** The constant of [get_camera_trans]:
    sqrt(focal[0]*focal[1]*camera_3d_size*camera_3d_size
         / (input_img_shape[0]*input_img_shape[1])). *)
Definition k_value : Result pyfloat :=
  let num := py_mul (py_mul (py_mul (fst (focal cfg)) (snd (focal cfg)))
                            (camera_3d_size cfg)) (camera_3d_size cfg) in
  let den := py_mul (fst (input_img_shape cfg)) (snd (input_img_shape cfg)) in
  q <- py_div num den ;;
  math_sqrt q.

(** [Model.get_camera_trans] *)
Definition get_camera_trans (cam_param : list vec) : Result (list vec) :=
  let t_xy := map (fun p => (c0 p, c1 p)) cam_param in
  let gamma := map (fun p => t_sigmoid (c2 p)) cam_param in
  k <- k_value ;;
  let k_value := as_elt k in
  let t_z := map (fun g => t_mul k_value g) gamma in
  let cam_trans := map (fun xyz => mk3 (fst (fst xyz)) (snd (fst xyz)) (snd xyz))
                       (combine t_xy t_z) in
  Ok cam_trans.

(** The perspective projection of lines 60-62. *)
Definition project (joint_cam : tensor3) (cam_trans : list vec)
  : Result (list (list (elt * elt))) :=
  xn <- tensor2_op t_add (map (map c0) joint_cam) (map (fun t => [c0 t]) cam_trans) ;;
  xd <- tensor2_op t_add (map (map c2) joint_cam) (map (fun t => [c2 t]) cam_trans) ;;
  let xd := map (map (fun d => t_add d (as_elt lit_1e_4))) xd in
  xq <- tensor2_op t_div xn xd ;;
  let x := map (map (fun q => t_add (t_mul q (as_elt (fst (focal cfg))))
                                    (as_elt (fst (princpt cfg))))) xq in
  yn <- tensor2_op t_add (map (map c1) joint_cam) (map (fun t => [c1 t]) cam_trans) ;;
  yd <- tensor2_op t_add (map (map c2) joint_cam) (map (fun t => [c2 t]) cam_trans) ;;
  let yd := map (map (fun d => t_add d (as_elt lit_1e_4))) yd in
  yq <- tensor2_op t_div yn yd ;;
  let y := map (map (fun q => t_add (t_mul q (as_elt (snd (focal cfg))))
                                    (as_elt (snd (princpt cfg))))) yq in
  broadcast (broadcast (fun a b => Ok (a, b))) x y.

(** The root-relative normalisation of lines 65-67, on joints of shape
    (B, J, 3) and a mesh of shape (B, V, 3). *)
Definition root_relative (J : nat) (root_joint_idx : Z)
    (joint_cam mesh_cam : tensor3) : Result (tensor3 * tensor3) :=
  root_cam <- index_dim1 J root_joint_idx joint_cam ;;
  joint_cam' <- tensor3_op v3_sub joint_cam root_cam ;;
  mesh_cam' <- tensor3_op v3_sub mesh_cam root_cam ;;
  Ok (joint_cam', mesh_cam').

(** [Model.get_coord] *)
Definition get_coord (m : Model) (smpl_root_pose smpl_pose smpl_shape : tensor2)
    (cam_trans : list vec)
  : Result (list (list (elt * elt)) * tensor3 * tensor3) :=
  let batch_size := length smpl_root_pose in
  output <- smpl_layer m smpl_root_pose smpl_pose smpl_shape ;;
  let mesh_cam := output in
  joint_cam <- bmm (repeat joint_regressor batch_size) mesh_cam ;;
  joint_proj <- project joint_cam cam_trans ;;
  '(joint_cam, mesh_cam) <-
      root_relative (length joint_regressor) root_joint_idx joint_cam mesh_cam ;;
  Ok (joint_proj, joint_cam, mesh_cam).

(** [Model.forward] *)
Definition forward (m : Model) (inp_img : list Img)
  : Result (tensor3 * tensor3 * list (list (elt * elt)) * tensor2 * tensor2) :=
  let batch_size := length inp_img in
  let img_feat := backbone m inp_img in
  let '(smpl_pose, smpl_shape, cam_trans) := head m img_feat in
  r6 <- reshape_m1_6 smpl_pose ;;
  aa <- rot6d_to_axis_angle r6 ;;
  smpl_pose <- reshape_b_m1 batch_size aa ;;
  cam_trans <- get_camera_trans cam_trans ;;
  '(joint_proj, joint_cam, mesh_cam) <-
      get_coord m (map (firstn 3) smpl_pose) (map (skipn 3) smpl_pose)
                smpl_shape cam_trans ;;
  Ok (mesh_cam, joint_cam, joint_proj, smpl_pose, smpl_shape).

End Pipeline.


(** ** IEEE 754 arithmetic

    A [torch.FloatTensor] holds binary32 numbers; Python floats are
    binary64.  Both are instances of Rocq's executable specification
    of IEEE 754 (round to nearest, ties to even). *)

Definition float32 : Type := spec_float.
Definition float64 : Type := spec_float.

Definition f32_add : float32 -> float32 -> float32 := SFadd 24 128.
Definition f32_sub : float32 -> float32 -> float32 := SFsub 24 128.
Definition f32_mul : float32 -> float32 -> float32 := SFmul 24 128.
Definition f32_div : float32 -> float32 -> float32 := SFdiv 24 128.
Definition f32_of_Z (z : Z) : float32 := binary_normalize 24 128 z 0 false.
Definition f64_of_Z (z : Z) : float64 := binary_normalize 53 1024 z 0 false.

Definition is_zero (x : spec_float) : bool :=
  match x with S754_zero _ => true | _ => false end.

(** Neither an infinity nor a NaN ([torch.isfinite]). *)
Definition is_finite (x : spec_float) : bool :=
  match x with S754_zero _ | S754_finite _ _ _ => true | _ => false end.

Definition f64_mul : float64 -> float64 -> float64 := SFmul 53 1024.

(** Python's [/] on floats raises on a zero divisor instead of
    returning an infinity. *)
Definition f64_div (x y : float64) : Result float64 :=
  if is_zero y then Raise ZeroDivisionError else Ok (SFdiv 53 1024 x y).

(** [math.sqrt] raises on a negative argument; it returns -0.0 at -0.0
    and propagates NaN. *)
Definition f64_sqrt (x : float64) : Result float64 :=
  match x with
  | S754_finite true _ _ | S754_infinity true => Raise ValueError
  | _ => Ok (SFsqrt 53 1024 x)
  end.

(** The conversion of a Python float to single precision. *)
Definition f32_of_f64 (x : float64) : float32 :=
  match x with
  | S754_finite s m e => binary_round 24 128 s m e
  | _ => x
  end.

(** The literal [1e-4]: the double nearest to 1/10000. *)
Definition f64_1e_4 : float64 := SFdiv 53 1024 (f64_of_Z 1) (f64_of_Z 10000).

(** *** The exponential in single precision

    [expf] is modelled by an enclosure of e^x in fixed point with
    [exp_frac] fractional bits, rounded to nearest: the argument is
    divided by 2^8, the series is summed for the reduced argument
    (which lies in [0, 1/2]), the sum is squared eight times, and the
    reciprocal is taken for a negative argument. *)

Definition exp_frac : Z := 512.
Definition exp_one : Z := 2 ^ exp_frac.

Definition cdiv (a b : Z) : Z := (a + b - 1) / b.

(** Lower and upper sums of the series of e^y, y = Y / 2^exp_frac in
    [0, 1/2]; [tlo], [thi] enclose the last term added, and the terms
    left out sum to less than that term. *)
Fixpoint exp_series (n : nat) (k Y tlo thi slo shi : Z) : Z * Z :=
  match n with
  | O => (slo, shi + thi + 1)
  | S n' =>
      let tlo' := (tlo * Y / exp_one) / k in
      let thi' := cdiv (cdiv (thi * Y) exp_one) k in
      exp_series n' (k + 1) Y tlo' thi' (slo + tlo') (shi + thi')
  end%Z.

Fixpoint square_iter (n : nat) (lh : Z * Z) : Z * Z :=
  match n with
  | O => lh
  | S n' => square_iter n' (fst lh * fst lh / exp_one, cdiv (snd lh * snd lh) exp_one)
  end%Z.

(** |x| >= 128 for x = m * 2^e *)
Definition mag_ge_128 (m : positive) (e : Z) : bool :=
  if (0 <=? e)%Z then (128 <=? Z.shiftl (Zpos m) e)%Z
  else (Z.shiftl 128 (- e) <=? Zpos m)%Z.

Definition exp32 (x : float32) : float32 :=
  match x with
  | S754_nan => S754_nan
  | S754_infinity false => S754_infinity false
  | S754_infinity true => S754_zero false
  | S754_zero _ => f32_of_Z 1
  | S754_finite s m e =>
      if mag_ge_128 m e then
        (if s then S754_zero false else S754_infinity false)
      else
        let Y := Z.shiftl (Zpos m) (e + exp_frac - 8) in
        let lh := square_iter 8 (exp_series 60 1 Y exp_one exp_one exp_one exp_one) in
        let lo := if s then (exp_one * exp_one / snd lh)%Z else fst lh in
        binary_normalize 24 128 lo (- exp_frac) false
  end.

(** [torch.sigmoid] on a float tensor: 1 / (1 + exp(-x)) in single
    precision.  The kernel of the library need not round the
    exponential correctly, and between the two saturated ranges its
    result can differ from this one in the last bits.  For |x| >= 128
    the exponential overflows or underflows in every implementation and
    the result is exactly 0 or exactly 1; the facts below use nothing
    else of the function. *)
Definition sigmoid32 (x : float32) : float32 :=
  f32_div (f32_of_Z 1) (f32_add (f32_of_Z 1) (exp32 (SFopp x))).

(** One inner product in single precision: every product and every
    partial sum rounded, the terms added from the left.  The library
    may fuse or reorder; what is stated about regressed values is
    stated for every inner product ([F32_with]), and this one serves
    the examples. *)
Definition f32_dot (row col : list float32) : float32 :=
  fold_left (fun acc wx => f32_add acc (f32_mul (fst wx) (snd wx)))
            (combine row col) (S754_zero false).

(** Single precision tensors over double precision Python floats, with
    the inner product [dot] of the matrix product. *)
Definition F32_with (dot : list float32 -> list float32 -> float32) : Scalar := {|
  pyfloat := float64;
  elt := float32;
  py_mul := f64_mul;
  py_div := f64_div;
  math_sqrt := f64_sqrt;
  lit_1e_4 := f64_1e_4;
  as_elt := f32_of_f64;
  t_add := f32_add;
  t_sub := f32_sub;
  t_mul := f32_mul;
  t_div := f32_div;
  t_dot := dot;
  t_sigmoid := sigmoid32
|}.

Definition F32 : Scalar := F32_with f32_dot.

(** ** Vocabulary of the statements *)

(** Pairing two lists entry by entry. *)
Definition zipw {A B C} (f : A -> B -> C) (l1 : list A) (l2 : list B) : list C :=
  map (fun ab => f (fst ab) (snd ab)) (combine l1 l2).

(** Entry (i, j) of a tensor of shape (B, n, ...). *)
Definition entry {A} (t : list (list A)) (i j : nat) : option A :=
  match nth_error t i with
  | Some row => nth_error row j
  | None => None
  end.

(** Entry [k] of a row, as Python indexes it once [k] is in range. *)
Definition select {A} (k : nat) (row : list A) : Result A :=
  match nth_error row k with
  | Some p => Ok p
  | None => Raise IndexError
  end.

(** ** The error monad and the list combinators *)

Lemma bind_ok_inv {A B} (c : Result A) (k : A -> Result B) (b : B) :
  bind c k = Ok b -> exists a, c = Ok a /\ k a = Ok b.
Proof.
  destruct c as [a|e]; simpl; intros H; [exists a; auto | discriminate].
Qed.

Lemma bind_raise_inv {A B} (c : Result A) (k : A -> Result B) (e : exn) :
  c = Raise e -> bind c k = Raise e.
Proof. intros ->; reflexivity. Qed.

Ltac inv_bind H :=
  let a := fresh "a" in
  let Ha := fresh "H" a in
  apply bind_ok_inv in H; destruct H as [a [Ha H]].

Lemma mapM_pure {A B} (g : A -> B) (l : list A) :
  mapM (fun a => Ok (g a)) l = Ok (map g l).
Proof.
  induction l as [|a l IH]; simpl; [reflexivity|].
  rewrite IH; reflexivity.
Qed.

Lemma mapM_ext {A B} (f g : A -> Result B) (l : list A) :
  (forall a, In a l -> f a = g a) -> mapM f l = mapM g l.
Proof.
  induction l as [|a l IH]; simpl; intros H; [reflexivity|].
  rewrite (H a) by auto. rewrite IH by auto. reflexivity.
Qed.

Lemma mapM_length {A B} (f : A -> Result B) (l : list A) (r : list B) :
  mapM f l = Ok r -> length r = length l.
Proof.
  revert r; induction l as [|a l IH]; simpl; intros r H.
  - injection H as <-; reflexivity.
  - inv_bind H. inv_bind H. injection H as <-. simpl. f_equal. eauto.
Qed.

Lemma mapM_nth {A B} (f : A -> Result B) (l : list A) (r : list B) i a :
  mapM f l = Ok r -> nth_error l i = Some a ->
  exists b, f a = Ok b /\ nth_error r i = Some b.
Proof.
  revert r i; induction l as [|x l IH]; simpl; intros r i H Hi.
  - destruct i; discriminate.
  - inv_bind H. inv_bind H. injection H as <-.
    destruct i as [|i]; simpl in *.
    + injection Hi as ->. eauto.
    + eauto.
Qed.

Lemma mapM2_pure {A B C} (g : A -> B -> C) (l1 : list A) (l2 : list B) :
  mapM2 (fun a b => Ok (g a b)) l1 l2 = Ok (zipw g l1 l2).
Proof.
  revert l2; induction l1 as [|a l1 IH]; intros [|b l2]; simpl; try reflexivity.
  rewrite IH; reflexivity.
Qed.

Lemma mapM2_ext {A B C} (f g : A -> B -> Result C) (l1 : list A) (l2 : list B) :
  (forall a b, In a l1 -> In b l2 -> f a b = g a b) -> mapM2 f l1 l2 = mapM2 g l1 l2.
Proof.
  revert l2; induction l1 as [|a l1 IH]; intros [|b l2] H; simpl; try reflexivity.
  rewrite (H a b) by (simpl; auto). rewrite IH; [reflexivity|].
  intros; apply H; simpl; auto.
Qed.

Lemma mapM2_length {A B C} (f : A -> B -> Result C) l1 l2 r :
  length l1 = length l2 -> mapM2 f l1 l2 = Ok r -> length r = length l1.
Proof.
  revert l2 r; induction l1 as [|a l1 IH]; intros [|b l2] r Hl H; simpl in *;
    try discriminate.
  - injection H as <-; reflexivity.
  - inv_bind H. inv_bind H. injection H as <-. simpl. f_equal. eauto.
Qed.

Lemma mapM2_nth {A B C} (f : A -> B -> Result C) l1 l2 r i a b :
  mapM2 f l1 l2 = Ok r -> nth_error l1 i = Some a -> nth_error l2 i = Some b ->
  exists c, f a b = Ok c /\ nth_error r i = Some c.
Proof.
  revert l2 r i; induction l1 as [|x l1 IH]; intros [|y l2] r i H H1 H2;
    simpl in *; try (destruct i; discriminate).
  inv_bind H. inv_bind H. injection H as <-.
  destruct i as [|i]; simpl in *.
  - injection H1 as ->. injection H2 as ->. eauto.
  - eauto.
Qed.

Lemma zipw_length {A B C} (f : A -> B -> C) l1 l2 :
  length l1 = length l2 -> length (zipw f l1 l2) = length l1.
Proof.
  intros H. unfold zipw. rewrite length_map, length_combine. lia.
Qed.

Lemma zipw_nth {A B C} (f : A -> B -> C) l1 l2 i a b :
  nth_error l1 i = Some a -> nth_error l2 i = Some b ->
  nth_error (zipw f l1 l2) i = Some (f a b).
Proof.
  revert l2 i; induction l1 as [|x l1 IH]; intros [|y l2] i H1 H2;
    simpl in *; try (destruct i; discriminate).
  destruct i as [|i]; simpl in *.
  - injection H1 as ->. injection H2 as ->. reflexivity.
  - apply IH; assumption.
Qed.

Lemma zipw_map_l {A A' B C} (f : A' -> B -> C) (g : A -> A') l1 l2 :
  zipw f (map g l1) l2 = zipw (fun a b => f (g a) b) l1 l2.
Proof.
  revert l2; induction l1 as [|x l1 IH]; intros [|y l2]; simpl; try reflexivity.
  unfold zipw in *. simpl. f_equal. apply IH.
Qed.

Lemma zipw_map_r {A B B' C} (f : A -> B' -> C) (g : B -> B') l1 l2 :
  zipw f l1 (map g l2) = zipw (fun a b => f a (g b)) l1 l2.
Proof.
  revert l2; induction l1 as [|x l1 IH]; intros [|y l2]; simpl; try reflexivity.
  unfold zipw in *. simpl. f_equal. apply IH.
Qed.

Lemma map_zipw {A B C D} (g : C -> D) (f : A -> B -> C) l1 l2 :
  map g (zipw f l1 l2) = zipw (fun a b => g (f a b)) l1 l2.
Proof. unfold zipw. rewrite map_map. reflexivity. Qed.

Lemma zipw_same {A C} (f : A -> A -> C) (l : list A) :
  zipw f l l = map (fun a => f a a) l.
Proof.
  induction l as [|a l IH]; [reflexivity|].
  unfold zipw in *. simpl. f_equal. exact IH.
Qed.

(** *** Broadcasting *)

Lemma broadcast_same_length {A B C} (f : A -> B -> Result C) l1 l2 :
  length l1 = length l2 -> broadcast f l1 l2 = mapM2 f l1 l2.
Proof.
  intros H. unfold broadcast. rewrite H, Nat.eqb_refl. reflexivity.
Qed.

(** A dimension of any size against a dimension of size 1. *)
Lemma broadcast_singleton {A B C} (f : A -> B -> C) (l : list A) (b : B) :
  broadcast (fun a b => Ok (f a b)) l [b] = Ok (map (fun a => f a b) l).
Proof.
  unfold broadcast.
  destruct l as [|a [|a' l]]; simpl; try reflexivity.
  rewrite (mapM_pure (fun a => f a b)). reflexivity.
Qed.

(** Equal sizes: entry by entry. *)
Lemma broadcast_pure_same {A B C} (f : A -> B -> C) l1 l2 :
  length l1 = length l2 ->
  broadcast (fun a b => Ok (f a b)) l1 l2 = Ok (zipw f l1 l2).
Proof.
  intros H. rewrite broadcast_same_length by assumption. apply mapM2_pure.
Qed.

(** A tensor of shape (B, n) against one of shape (B, 1). *)
Lemma broadcast2_column {A B C} (f : A -> B -> C) (t : list (list A)) (col : list B) :
  length t = length col ->
  broadcast (broadcast (fun a b => Ok (f a b))) t (map (fun b => [b]) col)
  = Ok (zipw (fun row b => map (fun a => f a b) row) t col).
Proof.
  intros H. rewrite broadcast_same_length by (rewrite length_map; exact H).
  revert col H; induction t as [|row t IH]; intros [|b col] H; simpl in *;
    try discriminate; try reflexivity.
  rewrite broadcast_singleton. simpl.
  rewrite IH by lia. reflexivity.
Qed.

(** Two tensors built row by row from the same pair of tensors. *)
Lemma broadcast2_rows {A B C D E} (f : C -> D -> E)
    (g : B -> A -> C) (h : B -> A -> D) (t : list (list A)) (col : list B) :
  broadcast (broadcast (fun a b => Ok (f a b)))
            (zipw (fun row b => map (g b) row) t col)
            (zipw (fun row b => map (h b) row) t col)
  = Ok (zipw (fun row b => map (fun a => f (g b a) (h b a)) row) t col).
Proof.
  rewrite broadcast_same_length
    by (unfold zipw; rewrite !length_map; reflexivity).
  revert col; induction t as [|row t IH]; intros [|b col]; simpl; try reflexivity.
  rewrite broadcast_pure_same by (rewrite !length_map; reflexivity).
  simpl. unfold zipw in IH. rewrite IH. simpl.
  rewrite zipw_map_l, zipw_map_r, zipw_same. reflexivity.
Qed.

(** A map over the entries of a tensor built row by row. *)
Lemma map_map_zipw {A B C D} (k : C -> D) (g : B -> A -> C)
    (t : list (list A)) (col : list B) :
  map (map k) (zipw (fun row b => map (g b) row) t col)
  = zipw (fun row b => map (fun a => k (g b a)) row) t col.
Proof.
  unfold zipw. rewrite map_map. apply map_ext. intros [row b]. simpl.
  apply map_map.
Qed.

Lemma mapM2_repeat {A B C} (f : A -> B -> Result C) (a : A) (l : list B) :
  mapM2 f (repeat a (length l)) l = mapM (f a) l.
Proof.
  induction l as [|b l IH]; simpl; [reflexivity|].
  rewrite IH. reflexivity.
Qed.

Lemma index_dim1_select {A} (n : nat) (i : Z) (t : list (list A)) :
  index_dim1 n i t
  = (k <- norm_index n i ;; roots <- mapM (select k) t ;;
     Ok (map (fun r => [r]) roots)).
Proof.
  unfold index_dim1. destruct (norm_index n i) as [k|e]; simpl; [|reflexivity].
  induction t as [|row t IH]; simpl; [reflexivity|].
  unfold select at 1. destruct (nth_error row k) as [p|]; simpl; [|reflexivity].
  rewrite IH. destruct (mapM (select k) t); reflexivity.
Qed.

Lemma norm_index_bound (n : nat) (i : Z) (k : nat) :
  norm_index n i = Ok k -> k < n.
Proof.
  unfold norm_index.
  destruct (0 <=? i)%Z eqn:H0.
  - destruct (i <? Z.of_nat n)%Z eqn:H1; [|discriminate].
    intros H; injection H as <-. lia.
  - destruct (0 <=? i + Z.of_nat n)%Z eqn:H1; [|discriminate].
    intros H; injection H as <-. lia.
Qed.

Section PipelineFacts.
Context {S : Scalar}.
Variable cfg : Config pyfloat.

(** The pinhole formula of the design, for one joint [p] and the
    camera translation [t] of its sample. *)
Definition proj_point (p t : vec) : elt * elt :=
  (t_add (t_mul (t_div (t_add (c0 p) (c0 t))
                       (t_add (t_add (c2 p) (c2 t)) (as_elt lit_1e_4)))
                (as_elt (fst (focal cfg))))
         (as_elt (fst (princpt cfg))),
   t_add (t_mul (t_div (t_add (c1 p) (c1 t))
                       (t_add (t_add (c2 p) (c2 t)) (as_elt lit_1e_4)))
                (as_elt (snd (focal cfg))))
         (as_elt (snd (princpt cfg)))).

Lemma project_same_batch (joint_cam : tensor3) (cam_trans : list vec) :
  length joint_cam = length cam_trans ->
  project cfg joint_cam cam_trans
  = Ok (zipw (fun row t => map (fun p => proj_point p t) row) joint_cam cam_trans).
Proof.
  intros H. unfold project, tensor2_op.
  assert (Hc : forall (g h : vec -> elt),
    broadcast (broadcast (fun a b => Ok (t_add a b)))
      (map (map g) joint_cam) (map (fun t => [h t]) cam_trans)
    = Ok (zipw (fun row t => map (fun p => t_add (g p) (h t)) row)
               joint_cam cam_trans)).
  { intros g h.
    rewrite <- (map_map h (fun b => [b])).
    rewrite broadcast2_column by (rewrite !length_map; exact H).
    rewrite zipw_map_l, zipw_map_r.
    f_equal. unfold zipw. apply map_ext. intros [row t]. simpl.
    apply map_map. }
  rewrite !Hc. simpl.
  rewrite !(map_map_zipw (fun d => t_add d (as_elt lit_1e_4))
              (fun (t p : vec) => t_add (c2 p) (c2 t)) joint_cam cam_trans).
  rewrite (broadcast2_rows t_div
             (fun (t p : vec) => t_add (c0 p) (c0 t))
             (fun (t p : vec) => t_add (t_add (c2 p) (c2 t)) (as_elt lit_1e_4))
             joint_cam cam_trans).
  simpl.
  rewrite (broadcast2_rows t_div
             (fun (t p : vec) => t_add (c1 p) (c1 t))
             (fun (t p : vec) => t_add (t_add (c2 p) (c2 t)) (as_elt lit_1e_4))
             joint_cam cam_trans).
  simpl.
  rewrite (map_map_zipw
    (fun q => t_add (t_mul q (as_elt (fst (focal cfg)))) (as_elt (fst (princpt cfg))))
    (fun (t p : vec) => t_div (t_add (c0 p) (c0 t))
                      (t_add (t_add (c2 p) (c2 t)) (as_elt lit_1e_4)))
    joint_cam cam_trans).
  rewrite (map_map_zipw
    (fun q => t_add (t_mul q (as_elt (snd (focal cfg)))) (as_elt (snd (princpt cfg))))
    (fun (t p : vec) => t_div (t_add (c1 p) (c1 t))
                      (t_add (t_add (c2 p) (c2 t)) (as_elt lit_1e_4)))
    joint_cam cam_trans).
  rewrite (broadcast2_rows (fun a b => (a, b))
    (fun (t p : vec) => t_add (t_mul (t_div (t_add (c0 p) (c0 t))
                       (t_add (t_add (c2 p) (c2 t)) (as_elt lit_1e_4)))
                (as_elt (fst (focal cfg)))) (as_elt (fst (princpt cfg))))
    (fun (t p : vec) => t_add (t_mul (t_div (t_add (c1 p) (c1 t))
                       (t_add (t_add (c2 p) (c2 t)) (as_elt lit_1e_4)))
                (as_elt (snd (focal cfg)))) (as_elt (snd (princpt cfg))))
    joint_cam cam_trans).
  reflexivity.
Qed.

(** The normalisation, for a mesh and joints of the same batch size:
    sample by sample, the root joint is subtracted from every joint
    and from every vertex. *)
Lemma root_relative_same_batch (J : nat) (idx : Z) (joint_cam mesh_cam : tensor3) :
  length mesh_cam = length joint_cam ->
  root_relative J idx joint_cam mesh_cam
  = (k <- norm_index J idx ;; roots <- mapM (select k) joint_cam ;;
     Ok (zipw (fun row r => map (fun p => v3_sub p r) row) joint_cam roots,
         zipw (fun row r => map (fun p => v3_sub p r) row) mesh_cam roots)).
Proof.
  intros Hl. unfold root_relative. rewrite index_dim1_select.
  destruct (norm_index J idx) as [k|e]; simpl; [|reflexivity].
  destruct (mapM (select k) joint_cam) as [roots|e] eqn:Hr; simpl; [|reflexivity].
  pose proof (mapM_length _ _ Hr) as Hlen.
  unfold tensor3_op.
  rewrite (broadcast2_column v3_sub joint_cam roots) by lia. simpl.
  rewrite (broadcast2_column v3_sub mesh_cam roots) by lia. simpl.
  reflexivity.
Qed.

Lemma bmm_repeat (reg : list (list elt)) (mesh_cam : tensor3) (n : nat) :
  bmm (repeat reg n) mesh_cam
  = if Nat.eqb n (length mesh_cam) then mapM (matmul reg) mesh_cam
    else Raise RuntimeError.
Proof.
  unfold bmm. rewrite repeat_length.
  destruct (Nat.eqb n (length mesh_cam)) eqn:E; [|reflexivity].
  apply Nat.eqb_eq in E. subst n. apply mapM2_repeat.
Qed.

Lemma matmul_length (reg : list (list elt)) (mesh : list vec) (joints : list vec) :
  matmul reg mesh = Ok joints -> length joints = length reg.
Proof. apply mapM_length. Qed.

Section GetCoord.
Variable Img Feat : Type.
Variable joint_regressor : list (list elt).
Variable root_joint_idx : Z.
Variable m : Model Img Feat.

(** What a successful call of [get_coord] has computed. *)
Lemma get_coord_inv smpl_root_pose smpl_pose smpl_shape cam_trans
    joint_proj joint_cam' mesh_cam' :
  get_coord cfg joint_regressor root_joint_idx m
            smpl_root_pose smpl_pose smpl_shape cam_trans
  = Ok (joint_proj, joint_cam', mesh_cam') ->
  exists mesh_cam joint_cam k roots,
    smpl_layer m smpl_root_pose smpl_pose smpl_shape = Ok mesh_cam /\
    length mesh_cam = length smpl_root_pose /\
    mapM (matmul joint_regressor) mesh_cam = Ok joint_cam /\
    project cfg joint_cam cam_trans = Ok joint_proj /\
    norm_index (length joint_regressor) root_joint_idx = Ok k /\
    mapM (select k) joint_cam = Ok roots /\
    joint_cam' = zipw (fun row r => map (fun p => v3_sub p r) row) joint_cam roots /\
    mesh_cam' = zipw (fun row r => map (fun p => v3_sub p r) row) mesh_cam roots.
Proof.
  unfold get_coord. intros H.
  inv_bind H. rename a into mesh_cam.
  inv_bind H. rename a into joint_cam.
  inv_bind H. rename a into jp.
  inv_bind H. destruct a as [jc mc]. injection H as <- <- <-.
  rewrite bmm_repeat in Ha0.
  destruct (Nat.eqb (length smpl_root_pose) (length mesh_cam)) eqn:E;
    [|discriminate].
  apply Nat.eqb_eq in E.
  pose proof (mapM_length _ _ Ha0) as Hjl.
  rewrite root_relative_same_batch in Ha2 by lia.
  inv_bind Ha2. rename a into k.
  inv_bind Ha2. rename a into roots.
  injection Ha2 as <- <-.
  exists mesh_cam, joint_cam, k, roots. repeat split; auto.
Qed.

End GetCoord.

End PipelineFacts.

(** ** A small concrete model in single precision

    Two vertices per mesh, read off the six shape coefficients of the
    sample; two joints, the first vertex and the midpoint of the two.
    The backbone hands the image batch to the head unchanged, and an
    image carries the three outputs the head reads from it. *)

Definition demo_cfg : Config float64 := {|
  focal := (f64_of_Z 1000, f64_of_Z 1000);
  princpt := (f64_of_Z 256, f64_of_Z 256);
  camera_3d_size := SFdiv 53 1024 (f64_of_Z 5) (f64_of_Z 2);
  input_img_shape := (f64_of_Z 256, f64_of_Z 256);
  freeze_backbone := false
|}.

(** The same configuration with a zero input resolution. *)
Definition zero_resolution_cfg : Config float64 := {|
  focal := (f64_of_Z 1000, f64_of_Z 1000);
  princpt := (f64_of_Z 256, f64_of_Z 256);
  camera_3d_size := SFdiv 53 1024 (f64_of_Z 5) (f64_of_Z 2);
  input_img_shape := (f64_of_Z 0, f64_of_Z 256);
  freeze_backbone := false
|}.

Definition demo_regressor : list (list float32) :=
  [ [f32_of_Z 1; f32_of_Z 0];
    [f32_div (f32_of_Z 1) (f32_of_Z 2); f32_div (f32_of_Z 1) (f32_of_Z 2)] ].

Definition demo_vertices (betas : list float32) : list (V3 float32) :=
  match betas with
  | x0 :: y0 :: z0 :: x1 :: y1 :: z1 :: _ => [mk3 x0 y0 z0; mk3 x1 y1 z1]
  | _ => []
  end.

Definition demo_smpl_layer (global_orient body_pose betas : list (list float32))
  : Result (list (list (V3 float32))) :=
  Ok (map demo_vertices betas).

Definition demo_img : Type :=
  list float32 * list float32 * V3 float32.

Definition demo_backbone (inp_img : list demo_img) : list demo_img := inp_img.

Definition demo_head (img_feat : list demo_img)
  : list (list float32) * list (list float32) * list (V3 float32) :=
  (map (fun s => fst (fst s)) img_feat,
   map (fun s => snd (fst s)) img_feat,
   map (fun s => snd s) img_feat).

(** A stand-in for the rotation converter: it keeps the first three
    numbers of every 6-vector. *)
Definition demo_rot6d (x : list (list float32)) : Result (list (list float32)) :=
  Ok (map (firstn 3) x).

Definition demo_model : @Model F32 demo_img (list demo_img) :=
  @Build_Model F32 demo_img (list demo_img)
    demo_backbone demo_head demo_smpl_layer [Backbone; Head].

Definition demo_pose6d : list float32 :=
  map f32_of_Z [1; 0; 0; 0; 1; 0; 1; 0; 0; 0; 1; 0]%Z.

(** A batch of two images. *)
Definition demo_input : list demo_img :=
  [ (demo_pose6d, map f32_of_Z [1; 2; 5; 3; 4; 7]%Z,
     mk3 (f32_of_Z 0) (f32_of_Z 0) (f32_of_Z 0));
    (demo_pose6d, map f32_of_Z [0; 0; 4; 2; 2; 6]%Z,
     mk3 (f32_of_Z 1) (f32_of_Z (-1)) (f32_of_Z 2)) ].

(** ** The shape vector passes through [forward] *)

(** C10. For every image batch on which [forward] returns, the fifth
    component of its result is the shape tensor that the head produced
    for the features of that batch: the coordinate pipeline hands it to
    the body model and returns it as it was. *)
Theorem forward_returns_head_shape
    (S : Scalar) (Img Feat : Type) (cfg : Config pyfloat)
    (joint_regressor : list (list elt)) (root_joint_idx : Z)
    (rot6d_to_axis_angle : tensor2 -> Result tensor2)
    (m : Model Img Feat) (inp_img : list Img)
    mesh_cam joint_cam joint_proj smpl_pose smpl_shape :
  forward cfg joint_regressor root_joint_idx rot6d_to_axis_angle m inp_img
  = Ok (mesh_cam, joint_cam, joint_proj, smpl_pose, smpl_shape) ->
  smpl_shape = snd (fst (head m (backbone m inp_img))).
Proof.
  unfold forward. intros H.
  destruct (head m (backbone m inp_img)) as [[pose6d shape] raw_cam]. simpl.
  inv_bind H. inv_bind H. inv_bind H. inv_bind H. inv_bind H.
  destruct a3 as [[jp jc] mc]. injection H as _ _ _ _ <-. reflexivity.
Qed.

Lemma forward_returns_head_shape_witness :
  exists mesh_cam joint_cam joint_proj smpl_pose smpl_shape,
    @forward F32 demo_img (list demo_img) demo_cfg demo_regressor 0%Z
             demo_rot6d demo_model demo_input
    = Ok (mesh_cam, joint_cam, joint_proj, smpl_pose, smpl_shape) /\
    smpl_shape = snd (fst (head demo_model (backbone demo_model demo_input))).
Proof.
  do 5 eexists. split.
  - vm_compute. reflexivity.
  - eapply (@forward_returns_head_shape F32 demo_img (list demo_img) demo_cfg
              demo_regressor 0%Z demo_rot6d demo_model demo_input).
    vm_compute. reflexivity.
Defined.

(** ** When an undefined [k] is reported *)

Lemma get_camera_trans_raises (S : Scalar) (cfg : Config pyfloat) (e : exn)
    (cam_param : list vec) :
  k_value cfg = Raise e -> get_camera_trans cfg cam_param = Raise e.
Proof.
  intros H. unfold get_camera_trans. rewrite H. reflexivity.
Qed.

(** C9, as the code has it. [Model.__init__] does not read the camera
    or the resolution of the configuration: it returns a model for
    every configuration.  The constant [k] is computed by
    [get_camera_trans], on each call.  So a configuration for which the
    computation of [k] raises [e] makes every call of
    [get_camera_trans] raise [e] and every call of [forward] raise: the
    exception is [e] itself whenever the pose output of the head passes
    the two reshapes and the rotation converter. *)
Theorem undefined_k_raises_in_forward
    (S : Scalar) (Img Feat : Type) (cfg : Config pyfloat)
    (joint_regressor : list (list elt)) (root_joint_idx : Z)
    (smpl_layer_neutral : tensor2 -> tensor2 -> tensor2 -> Result tensor3)
    (rot6d_to_axis_angle : tensor2 -> Result tensor2) (e : exn) :
  k_value cfg = Raise e ->
  (forall (backbone : list Img -> Feat) head,
     exists m, Model_init cfg smpl_layer_neutral backbone head = Ok m) /\
  (forall cam_param, get_camera_trans cfg cam_param = Raise e) /\
  (forall (m : Model Img Feat) inp_img,
     exists e', forward cfg joint_regressor root_joint_idx
                        rot6d_to_axis_angle m inp_img = Raise e') /\
  (forall (m : Model Img Feat) inp_img r6 aa smpl_pose,
     reshape_m1_6 (fst (fst (head m (backbone m inp_img)))) = Ok r6 ->
     rot6d_to_axis_angle r6 = Ok aa ->
     reshape_b_m1 (length inp_img) aa = Ok smpl_pose ->
     forward cfg joint_regressor root_joint_idx rot6d_to_axis_angle m inp_img
     = Raise e).
Proof.
  intros Hk. repeat split.
  - intros bb hd. eexists. reflexivity.
  - intros cam_param. apply get_camera_trans_raises; exact Hk.
  - intros m inp_img. unfold forward.
    destruct (head m (backbone m inp_img)) as [[pose6d shape] raw_cam].
    destruct (reshape_m1_6 pose6d) as [r6|e1]; simpl; [|eauto].
    destruct (rot6d_to_axis_angle r6) as [aa|e2]; simpl; [|eauto].
    destruct (reshape_b_m1 (length inp_img) aa) as [pose|e3]; simpl; [|eauto].
    rewrite (get_camera_trans_raises _ raw_cam Hk). simpl. eauto.
  - intros m inp_img r6 aa pose H1 H2 H3. unfold forward.
    destruct (head m (backbone m inp_img)) as [[pose6d shape] raw_cam].
    simpl in H1. rewrite H1. simpl. rewrite H2. simpl. rewrite H3. simpl.
    rewrite (get_camera_trans_raises _ raw_cam Hk). reflexivity.
Qed.

Lemma undefined_k_raises_in_forward_witness :
  @k_value F32 zero_resolution_cfg = Raise ZeroDivisionError /\
  (exists m, @Model_init F32 demo_img (list demo_img) zero_resolution_cfg
                         demo_smpl_layer demo_backbone demo_head = Ok m) /\
  @forward F32 demo_img (list demo_img) zero_resolution_cfg demo_regressor 0%Z
           demo_rot6d demo_model demo_input = Raise ZeroDivisionError.
Proof.
  assert (Hk : @k_value F32 zero_resolution_cfg = Raise ZeroDivisionError)
    by (vm_compute; reflexivity).
  destruct (@undefined_k_raises_in_forward F32 demo_img (list demo_img)
              zero_resolution_cfg demo_regressor 0%Z demo_smpl_layer demo_rot6d
              ZeroDivisionError Hk) as [Hinit [_ [_ Hfwd]]].
  split; [exact Hk|]. split.
  - apply Hinit.
  - eapply Hfwd; vm_compute; reflexivity.
Defined.

(** C9, as the design states it, fails: with a zero input resolution
    the construction of the model succeeds, and the first call of
    [forward] raises [ZeroDivisionError]. *)
Lemma construction_accepts_zero_resolution :
  @Model_init F32 demo_img (list demo_img) zero_resolution_cfg
              demo_smpl_layer demo_backbone demo_head = Ok demo_model /\
  @forward F32 demo_img (list demo_img) zero_resolution_cfg demo_regressor 0%Z
           demo_rot6d demo_model demo_input = Raise ZeroDivisionError.
Proof.
  split; [reflexivity | vm_compute; reflexivity].
Qed.

(** ** The projector *)

Lemma entry_zipw_map {A B C} (f : A -> B -> C) (t : list (list A)) (col : list B)
    i j p b :
  entry t i j = Some p -> nth_error col i = Some b ->
  entry (zipw (fun row b => map (fun a => f a b) row) t col) i j = Some (f p b).
Proof.
  unfold entry. intros Hp Hb.
  destruct (nth_error t i) as [row|] eqn:Hrow; [|discriminate].
  rewrite (zipw_nth _ _ _ _ Hrow Hb).
  rewrite nth_error_map, Hp. reflexivity.
Qed.

(** C4. For a batch of joints and as many camera translations, the
    projector returns, for joint j of sample i at (X, Y, Z) and the
    translation (tx, ty, tz) of sample i,
    x = (X + tx) / (Z + tz + 1e-4) * focal_x + principal_x and
    y = (Y + ty) / (Z + tz + 1e-4) * focal_y + principal_y.
    In single precision, the joint (0, 0, 5) seen with translation
    (0, 0, 1), focal lengths 1000 and principal point (256, 256) is
    projected to (256, 256). *)
Theorem project_is_pinhole :
  (forall (S : Scalar) (cfg : Config pyfloat)
          (joint_cam : tensor3) (cam_trans : list vec),
     length joint_cam = length cam_trans ->
     exists joint_proj,
       project cfg joint_cam cam_trans = Ok joint_proj /\
       forall i j p t,
         entry joint_cam i j = Some p -> nth_error cam_trans i = Some t ->
         entry joint_proj i j
         = Some (t_add (t_mul (t_div (t_add (c0 p) (c0 t))
                                     (t_add (t_add (c2 p) (c2 t)) (as_elt lit_1e_4)))
                              (as_elt (fst (focal cfg))))
                       (as_elt (fst (princpt cfg))),
                 t_add (t_mul (t_div (t_add (c1 p) (c1 t))
                                     (t_add (t_add (c2 p) (c2 t)) (as_elt lit_1e_4)))
                              (as_elt (snd (focal cfg))))
                       (as_elt (snd (princpt cfg))))) /\
  @project F32 demo_cfg
     [[mk3 (f32_of_Z 0) (f32_of_Z 0) (f32_of_Z 5)]]
     [mk3 (f32_of_Z 0) (f32_of_Z 0) (f32_of_Z 1)]
  = Ok [[(f32_of_Z 256, f32_of_Z 256)]].
Proof.
  split.
  - intros S cfg joint_cam cam_trans Hlen.
    eexists. split; [apply project_same_batch; exact Hlen|].
    intros i j p t Hp Ht.
    apply (entry_zipw_map (fun p t => proj_point cfg p t) joint_cam cam_trans
             i j Hp Ht).
  - vm_compute. reflexivity.
Qed.

Lemma project_is_pinhole_witness :
  exists joint_proj,
    @project F32 demo_cfg
       [[mk3 (f32_of_Z 1) (f32_of_Z 2) (f32_of_Z 5);
         mk3 (f32_of_Z 3) (f32_of_Z 4) (f32_of_Z 7)]]
       [mk3 (f32_of_Z 1) (f32_of_Z (-1)) (f32_of_Z 2)] = Ok joint_proj /\
    entry joint_proj 0 1
    = Some (S754_finite false 11476001 (-14), S754_finite false 9655576 (-14)).
Proof.
  destruct (proj1 project_is_pinhole F32 demo_cfg
              [[mk3 (f32_of_Z 1) (f32_of_Z 2) (f32_of_Z 5);
                mk3 (f32_of_Z 3) (f32_of_Z 4) (f32_of_Z 7)]]
              [mk3 (f32_of_Z 1) (f32_of_Z (-1)) (f32_of_Z 2)] eq_refl)
    as [joint_proj [Hp He]].
  exists joint_proj. split; [exact Hp|].
  rewrite (He 0 1 (mk3 (f32_of_Z 3) (f32_of_Z 4) (f32_of_Z 7))
              (mk3 (f32_of_Z 1) (f32_of_Z (-1)) (f32_of_Z 2)) eq_refl eq_refl).
  vm_compute. reflexivity.
Defined.

(** ** What [get_coord] returns for one sample *)

Lemma mapM_select_nth {A} (k : nat) (t : list (list A)) (roots : list A) i row :
  mapM (select k) t = Ok roots -> nth_error t i = Some row ->
  exists r, nth_error row k = Some r /\ nth_error roots i = Some r.
Proof.
  intros H Hi. destruct (mapM_nth _ _ _ H Hi) as [r [Hs Hr]].
  exists r. split; [|exact Hr].
  unfold select in Hs. destruct (nth_error row k); [|discriminate].
  injection Hs as ->. reflexivity.
Qed.

Section Samples.
Context {S : Scalar}.
Variable Img Feat : Type.
Variable cfg : Config pyfloat.
Variable joint_regressor : list (list elt).
Variable root_joint_idx : Z.
Variable m : Model Img Feat.

(** Sample i of the three results, in terms of the mesh of sample i,
    its regressed joints, their root joint [r] and the camera
    translation of sample i. *)
Lemma get_coord_sample smpl_root_pose smpl_pose smpl_shape cam_trans
    joint_proj joint_cam' mesh_cam' :
  get_coord cfg joint_regressor root_joint_idx m
            smpl_root_pose smpl_pose smpl_shape cam_trans
  = Ok (joint_proj, joint_cam', mesh_cam') ->
  exists mesh_cam k,
    smpl_layer m smpl_root_pose smpl_pose smpl_shape = Ok mesh_cam /\
    length mesh_cam = length smpl_root_pose /\
    norm_index (length joint_regressor) root_joint_idx = Ok k /\
    forall i mesh,
      nth_error mesh_cam i = Some mesh ->
      exists joints r,
        matmul joint_regressor mesh = Ok joints /\
        nth_error joints k = Some r /\
        nth_error joint_cam' i = Some (map (fun p => v3_sub p r) joints) /\
        nth_error mesh_cam' i = Some (map (fun p => v3_sub p r) mesh) /\
        forall t,
          length cam_trans = length smpl_root_pose ->
          nth_error cam_trans i = Some t ->
          nth_error joint_proj i = Some (map (fun p => proj_point cfg p t) joints).
Proof.
  intros H.
  destruct (get_coord_inv _ _ _ _ _ _ _ _ H)
    as [mesh_cam [joint_cam [k [roots [Hl [Hlen [Hj [Hp [Hk [Hr [-> ->]]]]]]]]]]].
  exists mesh_cam, k. repeat split; auto.
  intros i mesh Hi.
  destruct (mapM_nth _ _ _ Hj Hi) as [joints [Hm Hji]].
  edestruct (@mapM_select_nth vec) as [r [Hrk Hri]]; [exact Hr | exact Hji |].
  exists joints, r. repeat split; auto.
  - apply (zipw_nth (fun row r => map (fun p => v3_sub p r) row) _ _ _ Hji Hri).
  - apply (zipw_nth (fun row r => map (fun p => v3_sub p r) row) _ _ _ Hi Hri).
  - intros t Hct Ht.
    rewrite project_same_batch in Hp
      by (rewrite (mapM_length _ _ Hj); congruence).
    injection Hp as <-.
    apply (zipw_nth (fun row t => map (fun p => proj_point cfg p t) row)
             _ _ _ Hji Ht).
Qed.

End Samples.

(** ** The projection is taken before the normalisation *)

(** C1. Whenever [get_coord] returns, on as many camera translations
    as samples: with [joint_cam] the joints as the batched product with
    the regressor gave them, in absolute camera space, every entry of
    the returned projection is the pinhole projection [proj_point] of
    the entry of [joint_cam] at the same place, while the returned
    joints and mesh are [joint_cam] and the body-model vertices with
    the root joint of [joint_cam] subtracted.  The projection is that
    of the joints before the subtraction; the subtraction changes the
    joints and the mesh and nothing of the projection. *)
Theorem get_coord_projects_absolute_joints
    (S : Scalar) (Img Feat : Type) (cfg : Config pyfloat)
    (joint_regressor : list (list elt)) (root_joint_idx : Z)
    (m : Model Img Feat)
    (smpl_root_pose smpl_pose smpl_shape : tensor2) (cam_trans : list vec)
    joint_proj joint_cam' mesh_cam' :
  get_coord cfg joint_regressor root_joint_idx m
            smpl_root_pose smpl_pose smpl_shape cam_trans
  = Ok (joint_proj, joint_cam', mesh_cam') ->
  length cam_trans = length smpl_root_pose ->
  exists mesh_cam joint_cam k,
    smpl_layer m smpl_root_pose smpl_pose smpl_shape = Ok mesh_cam /\
    bmm (repeat joint_regressor (length smpl_root_pose)) mesh_cam = Ok joint_cam /\
    norm_index (length joint_regressor) root_joint_idx = Ok k /\
    (forall i j p t,
       entry joint_cam i j = Some p -> nth_error cam_trans i = Some t ->
       entry joint_proj i j = Some (proj_point cfg p t)) /\
    (forall i j p r,
       entry joint_cam i j = Some p -> entry joint_cam i k = Some r ->
       entry joint_cam' i j = Some (v3_sub p r)) /\
    (forall i j v r,
       entry mesh_cam i j = Some v -> entry joint_cam i k = Some r ->
       entry mesh_cam' i j = Some (v3_sub v r)).
Proof.
  intros H Hct.
  destruct (get_coord_inv _ _ _ _ _ _ _ _ H)
    as [mesh_cam [joint_cam [k [roots [Hl [Hlen [Hj [Hp [Hk [Hr [-> ->]]]]]]]]]]].
  pose proof (mapM_length _ _ Hj) as Hjl.
  assert (Hroot : forall i r, entry joint_cam i k = Some r ->
                              nth_error roots i = Some r).
  { intros i r He. unfold entry in He.
    destruct (nth_error joint_cam i) as [row|] eqn:Hrow; [|discriminate].
    edestruct (@mapM_select_nth vec) as [r' [Hr' Hri]];
      [exact Hr | exact Hrow |].
    rewrite Hr' in He. injection He as <-. exact Hri. }
  exists mesh_cam, joint_cam, k. repeat split; auto.
  - rewrite bmm_repeat, Hlen, Nat.eqb_refl. exact Hj.
  - intros i j p t He Ht.
    rewrite project_same_batch in Hp
      by (unfold tensor3, vec in *; congruence).
    injection Hp as <-.
    apply (entry_zipw_map (fun p t => proj_point cfg p t) joint_cam cam_trans
             i j He Ht).
  - intros i j p r He Her.
    apply (entry_zipw_map (fun p r => v3_sub p r) joint_cam roots
             i j He (Hroot i r Her)).
  - intros i j v r He Her.
    apply (entry_zipw_map (fun p r => v3_sub p r) mesh_cam roots
             i j He (Hroot i r Her)).
Qed.

Lemma get_coord_projects_absolute_joints_witness :
  exists joint_proj joint_cam' mesh_cam',
    @get_coord F32 demo_img (list demo_img) demo_cfg demo_regressor 0%Z demo_model
       [[]; []] [[]; []]
       [map f32_of_Z [1; 2; 5; 3; 4; 7]%Z; map f32_of_Z [0; 0; 4; 2; 2; 6]%Z]
       [mk3 (f32_of_Z 0) (f32_of_Z 0) (f32_of_Z 1);
        mk3 (f32_of_Z 1) (f32_of_Z (-1)) (f32_of_Z 2)]
    = Ok (joint_proj, joint_cam', mesh_cam') /\
    (* joint 1 of sample 0 is regressed to (2, 3, 6) and its root to (1, 2, 5) *)
    entry joint_proj 0 1
    = Some (@proj_point F32 demo_cfg
              (mk3 (f32_of_Z 2) (f32_of_Z 3) (f32_of_Z 6))
              (mk3 (f32_of_Z 0) (f32_of_Z 0) (f32_of_Z 1))) /\
    entry joint_cam' 0 1 = Some (mk3 (f32_of_Z 1) (f32_of_Z 1) (f32_of_Z 1)) /\
    entry joint_proj 0 1
    <> Some (@proj_point F32 demo_cfg
               (mk3 (f32_of_Z 1) (f32_of_Z 1) (f32_of_Z 1))
               (mk3 (f32_of_Z 0) (f32_of_Z 0) (f32_of_Z 1))).
Proof.
  do 3 eexists.
  assert (H : @get_coord F32 demo_img (list demo_img) demo_cfg demo_regressor
                0%Z demo_model [[]; []] [[]; []]
                [map f32_of_Z [1; 2; 5; 3; 4; 7]%Z; map f32_of_Z [0; 0; 4; 2; 2; 6]%Z]
                [mk3 (f32_of_Z 0) (f32_of_Z 0) (f32_of_Z 1);
                 mk3 (f32_of_Z 1) (f32_of_Z (-1)) (f32_of_Z 2)]
              = Ok (_, _, _)) by (vm_compute; reflexivity).
  split; [exact H|].
  destruct (@get_coord_projects_absolute_joints F32 _ _ _ _ _ _ _ _ _ _ _ _ _
              H eq_refl)
    as [mesh_cam [joint_cam [k [Hl [Hb [Hk [Hproj [Hjc _]]]]]]]].
  injection Hl as <-. vm_compute in Hb. injection Hb as <-.
  injection Hk as <-.
  assert (Hp : entry _ 0 1 = Some _)
    by exact (Hproj 0 1 _ (mk3 (f32_of_Z 0) (f32_of_Z 0) (f32_of_Z 1))
                eq_refl eq_refl).
  split; [exact Hp|].
  split.
  - exact (Hjc 0 1 _ _ eq_refl eq_refl).
  - rewrite Hp. vm_compute. discriminate.
Defined.

(** ** Batch independence *)

(** The body model is an external callable on whole batches.  It acts
    sample by sample when, on inputs of one batch size, its result is
    the list of the results of one function of a single sample. *)
Definition acts_per_sample {S : Scalar}
    (layer : tensor2 -> tensor2 -> tensor2 -> Result tensor3) : Prop :=
  exists one : list elt -> list elt -> list elt -> Result (list vec),
    forall global_orient body_pose betas,
      length body_pose = length global_orient ->
      length betas = length global_orient ->
      layer global_orient body_pose betas
      = mapM2 (fun a bc => one a (fst bc) (snd bc))
              global_orient (combine body_pose betas).

Lemma nth_error_combine {A B} (l1 : list A) (l2 : list B) i a b :
  nth_error l1 i = Some a -> nth_error l2 i = Some b ->
  nth_error (combine l1 l2) i = Some (a, b).
Proof.
  revert l2 i; induction l1 as [|x l1 IH]; intros [|y l2] [|i] H1 H2;
    simpl in *; try discriminate.
  - injection H1 as ->. injection H2 as ->. reflexivity.
  - apply IH; assumption.
Qed.

Lemma nth_error_in_range {A} (l : list A) i :
  i < length l -> exists a, nth_error l i = Some a.
Proof.
  intros H. destruct (nth_error l i) as [a|] eqn:E; [eauto|].
  apply nth_error_None in E. lia.
Qed.

(** C8. With a body model that acts sample by sample, take two batches
    of the same size whose sample i is the same (root pose, body pose,
    shape and camera translation) and whose other samples are
    arbitrary.  When [get_coord] returns on both, sample i of the
    projected joints, of the joints and of the mesh is the same in the
    two results. *)
Theorem get_coord_batch_independent
    (S : Scalar) (Img Feat : Type) (cfg : Config pyfloat)
    (joint_regressor : list (list elt)) (root_joint_idx : Z)
    (m : Model Img Feat)
    (rp p s : tensor2) (ct : list vec) (rp' p' s' : tensor2) (ct' : list vec)
    (i : nat) jp jc mc jp' jc' mc' :
  acts_per_sample (smpl_layer m) ->
  length p = length rp -> length s = length rp -> length ct = length rp ->
  length p' = length rp' -> length s' = length rp' -> length ct' = length rp' ->
  length rp' = length rp -> i < length rp ->
  nth_error rp' i = nth_error rp i -> nth_error p' i = nth_error p i ->
  nth_error s' i = nth_error s i -> nth_error ct' i = nth_error ct i ->
  get_coord cfg joint_regressor root_joint_idx m rp p s ct = Ok (jp, jc, mc) ->
  get_coord cfg joint_regressor root_joint_idx m rp' p' s' ct' = Ok (jp', jc', mc') ->
  nth_error jp' i = nth_error jp i /\
  nth_error jc' i = nth_error jc i /\
  nth_error mc' i = nth_error mc i.
Proof.
  intros [one Hone] Lp Ls Lct Lp' Ls' Lct' Lrp Hi Erp Ep Es Ect H H'.
  destruct (get_coord_sample _ _ _ _ _ _ _ _ H)
    as [mesh_cam [k [Hl [Hlen [Hk Hall]]]]].
  destruct (get_coord_sample _ _ _ _ _ _ _ _ H')
    as [mesh_cam' [k' [Hl' [Hlen' [Hk' Hall']]]]].
  rewrite Hk in Hk'. injection Hk' as <-.
  destruct (nth_error_in_range rp Hi) as [a Ha].
  destruct (nth_error_in_range p (i:=i)) as [b Hb]; [lia|].
  destruct (nth_error_in_range s (i:=i)) as [c Hc]; [lia|].
  destruct (nth_error_in_range ct (i:=i)) as [t Ht]; [lia|].
  rewrite Hone in Hl by assumption.
  rewrite Hone in Hl' by assumption.
  destruct (mapM2_nth _ _ _ _ Hl Ha (nth_error_combine _ _ _ Hb Hc))
    as [mesh [Hmesh Hmi]].
  rewrite <- Erp in Ha. rewrite <- Ep in Hb. rewrite <- Es in Hc.
  destruct (mapM2_nth _ _ _ _ Hl' Ha (nth_error_combine _ _ _ Hb Hc))
    as [mesh' [Hmesh' Hmi']].
  simpl in Hmesh, Hmesh'. rewrite Hmesh in Hmesh'. injection Hmesh' as <-.
  destruct (Hall i mesh Hmi) as [joints [r [Hj [Hr [Hjc [Hmc Hjp]]]]]].
  destruct (Hall' i mesh Hmi') as [joints' [r' [Hj' [Hr' [Hjc' [Hmc' Hjp']]]]]].
  rewrite Hj in Hj'. injection Hj' as <-.
  rewrite Hr in Hr'. injection Hr' as <-.
  rewrite Hjc, Hjc', Hmc, Hmc'.
  rewrite (Hjp t Lct Ht).
  rewrite (Hjp' t Lct') by (rewrite Ect; exact Ht).
  auto.
Qed.

Lemma demo_layer_per_sample : @acts_per_sample F32 demo_smpl_layer.
Proof.
  exists (fun _ _ betas => Ok (demo_vertices betas)).
  intros go bp betas Hbp Hb. unfold demo_smpl_layer.
  rewrite (mapM2_pure (fun _ (bc : list float32 * list float32) =>
                         demo_vertices (snd bc))).
  f_equal. revert bp betas Hbp Hb.
  induction go as [|g go IH]; intros [|x bp] [|y betas] Hbp Hb;
    simpl in *; try discriminate; try reflexivity.
  unfold zipw in *. simpl. f_equal. apply IH; lia.
Qed.

Lemma get_coord_batch_independent_witness :
  exists jp jc mc jp' jc' mc',
    @get_coord F32 demo_img (list demo_img) demo_cfg demo_regressor 0%Z demo_model
       [[]; []] [[]; []]
       [map f32_of_Z [1; 2; 5; 3; 4; 7]%Z; map f32_of_Z [0; 0; 4; 2; 2; 6]%Z]
       [mk3 (f32_of_Z 0) (f32_of_Z 0) (f32_of_Z 1);
        mk3 (f32_of_Z 1) (f32_of_Z (-1)) (f32_of_Z 2)]
    = Ok (jp, jc, mc) /\
    @get_coord F32 demo_img (list demo_img) demo_cfg demo_regressor 0%Z demo_model
       [[]; []] [[]; []]
       [map f32_of_Z [1; 2; 5; 3; 4; 7]%Z; map f32_of_Z [9; 9; 9; 8; 8; 8]%Z]
       [mk3 (f32_of_Z 0) (f32_of_Z 0) (f32_of_Z 1);
        mk3 (f32_of_Z 5) (f32_of_Z 5) (f32_of_Z 5)]
    = Ok (jp', jc', mc') /\
    nth_error jp' 0 = nth_error jp 0 /\
    nth_error jc' 0 = nth_error jc 0 /\
    nth_error mc' 0 = nth_error mc 0.
Proof.
  do 6 eexists.
  assert (H : @get_coord F32 demo_img (list demo_img) demo_cfg demo_regressor
                0%Z demo_model [[]; []] [[]; []]
                [map f32_of_Z [1; 2; 5; 3; 4; 7]%Z; map f32_of_Z [0; 0; 4; 2; 2; 6]%Z]
                [mk3 (f32_of_Z 0) (f32_of_Z 0) (f32_of_Z 1);
                 mk3 (f32_of_Z 1) (f32_of_Z (-1)) (f32_of_Z 2)]
              = Ok (_, _, _)) by (vm_compute; reflexivity).
  assert (H' : @get_coord F32 demo_img (list demo_img) demo_cfg demo_regressor
                0%Z demo_model [[]; []] [[]; []]
                [map f32_of_Z [1; 2; 5; 3; 4; 7]%Z; map f32_of_Z [9; 9; 9; 8; 8; 8]%Z]
                [mk3 (f32_of_Z 0) (f32_of_Z 0) (f32_of_Z 1);
                 mk3 (f32_of_Z 5) (f32_of_Z 5) (f32_of_Z 5)]
              = Ok (_, _, _)) by (vm_compute; reflexivity).
  split; [exact H|]. split; [exact H'|].
  refine (@get_coord_batch_independent F32 demo_img (list demo_img) demo_cfg
            demo_regressor 0%Z demo_model _ _ _ _ _ _ _ _ 0
            _ _ _ _ _ _ demo_layer_per_sample
            _ _ _ _ _ _ _ _ _ _ _ _ H H');
    try reflexivity; simpl; lia.
Defined.

(** ** The root joint after normalisation *)

Definition finite3 (p : V3 float32) : bool :=
  is_finite (c0 p) && is_finite (c1 p) && is_finite (c2 p).

Definition zero3 : V3 float32 :=
  mk3 (S754_zero false) (S754_zero false) (S754_zero false).

(** In binary32 a finite number minus itself is +0; an infinity or a
    NaN minus itself is NaN. *)
Lemma f32_sub_self (x : float32) :
  is_finite x = true -> f32_sub x x = S754_zero false.
Proof.
  destruct x as [[|]|[|]| |s m e]; try discriminate; intros _; try reflexivity.
  unfold f32_sub, SFsub. cbv zeta. rewrite Z.sub_diag. reflexivity.
Qed.

Lemma f32_sub_self_nan (x : float32) :
  is_finite x = false -> f32_sub x x = S754_nan.
Proof.
  destruct x as [[|]|[|]| |s m e]; try discriminate; intros _; reflexivity.
Qed.

Lemma v3_sub_self (r : V3 float32) :
  finite3 r = true -> @v3_sub F32 r r = zero3.
Proof.
  unfold finite3. intros H.
  apply andb_prop in H. destruct H as [H H2].
  apply andb_prop in H. destruct H as [H0 H1].
  unfold v3_sub, zero3. simpl.
  rewrite (@f32_sub_self _ H0), (@f32_sub_self _ H1), (@f32_sub_self _ H2).
  reflexivity.
Qed.

Lemma entry_nth {A} (t : list (list A)) i j row :
  nth_error t i = Some row -> entry t i j = nth_error row j.
Proof. unfold entry. intros ->. reflexivity. Qed.

(** The entries that the normalisation step returns, for joints and a
    mesh of one batch size. *)
Lemma root_relative_entries (S : Scalar) (J : nat) (idx : Z) (k : nat)
    (joint_cam mesh_cam joint_cam' mesh_cam' : tensor3) :
  length mesh_cam = length joint_cam ->
  norm_index J idx = Ok k ->
  root_relative J idx joint_cam mesh_cam = Ok (joint_cam', mesh_cam') ->
  (forall i j p r,
     entry joint_cam i j = Some p -> entry joint_cam i k = Some r ->
     entry joint_cam' i j = Some (v3_sub p r)) /\
  (forall i j v r,
     entry mesh_cam i j = Some v -> entry joint_cam i k = Some r ->
     entry mesh_cam' i j = Some (v3_sub v r)).
Proof.
  intros Hl Hk H.
  rewrite root_relative_same_batch in H by exact Hl.
  rewrite Hk in H. cbn [bind] in H.
  inv_bind H. rename a into roots. injection H as <- <-.
  assert (Hroot : forall i r, entry joint_cam i k = Some r ->
                              nth_error roots i = Some r).
  { intros i r He. unfold entry in He.
    destruct (nth_error joint_cam i) as [row|] eqn:Hrow; [|discriminate].
    edestruct (@mapM_select_nth vec) as [r' [Hr' Hri]];
      [exact Ha | exact Hrow |].
    rewrite Hr' in He. injection He as <-. exact Hri. }
  split.
  - intros i j p r He Her.
    apply (entry_zipw_map (fun p r => v3_sub p r) joint_cam roots
             i j He (Hroot i r Her)).
  - intros i j v r He Her.
    apply (entry_zipw_map (fun p r => v3_sub p r) mesh_cam roots
             i j He (Hroot i r Her)).
Qed.

(** X1. In single precision, for the normalisation step of
    [get_coord] on joints and a mesh of one batch size: with [r] the
    root joint of a sample, the root row of the returned joints of that
    sample is [r - r], which is exactly (0, 0, 0) when the three
    coordinates of [r] are finite, and every vertex of the returned
    mesh of that sample is the vertex minus the same [r]. *)
Theorem root_row_zero_when_root_finite
    (J : nat) (idx : Z) (k : nat)
    (joint_cam mesh_cam joint_cam' mesh_cam' : list (list (V3 float32))) :
  length mesh_cam = length joint_cam ->
  norm_index J idx = Ok k ->
  @root_relative F32 J idx joint_cam mesh_cam = Ok (joint_cam', mesh_cam') ->
  forall i r,
    entry joint_cam i k = Some r ->
    entry joint_cam' i k = Some (@v3_sub F32 r r) /\
    (finite3 r = true -> entry joint_cam' i k = Some zero3) /\
    (forall j v, entry mesh_cam i j = Some v ->
                 entry mesh_cam' i j = Some (@v3_sub F32 v r)).
Proof.
  intros Hl Hk H i r Hr.
  destruct (@root_relative_entries F32 J idx k joint_cam mesh_cam
              joint_cam' mesh_cam' Hl Hk H) as [Hjc Hmc].
  pose proof (Hjc i k r r Hr Hr) as E.
  split; [exact E|]. split.
  - intros Hf. rewrite <- (@v3_sub_self r Hf). exact E.
  - intros j v Hv. exact (Hmc i j v r Hv Hr).
Qed.

Lemma root_row_zero_when_root_finite_witness :
  exists jc' mc',
    @root_relative F32 2 0%Z
      [[mk3 (f32_of_Z 1) (f32_of_Z 2) (f32_of_Z 5);
        mk3 (f32_of_Z 2) (f32_of_Z 3) (f32_of_Z 6)]]
      [[mk3 (f32_of_Z 1) (f32_of_Z 2) (f32_of_Z 5);
        mk3 (f32_of_Z 3) (f32_of_Z 4) (f32_of_Z 7)]]
    = Ok (jc', mc') /\
    entry jc' 0 0 = Some zero3 /\
    entry mc' 0 1 = Some (mk3 (f32_of_Z 2) (f32_of_Z 2) (f32_of_Z 2)).
Proof.
  do 2 eexists.
  assert (H : @root_relative F32 2 0%Z
      [[mk3 (f32_of_Z 1) (f32_of_Z 2) (f32_of_Z 5);
        mk3 (f32_of_Z 2) (f32_of_Z 3) (f32_of_Z 6)]]
      [[mk3 (f32_of_Z 1) (f32_of_Z 2) (f32_of_Z 5);
        mk3 (f32_of_Z 3) (f32_of_Z 4) (f32_of_Z 7)]]
    = Ok (_, _)) by (vm_compute; reflexivity).
  split; [exact H|].
  destruct (@root_row_zero_when_root_finite 2 0%Z 0
              [[mk3 (f32_of_Z 1) (f32_of_Z 2) (f32_of_Z 5);
                mk3 (f32_of_Z 2) (f32_of_Z 3) (f32_of_Z 6)]]
              [[mk3 (f32_of_Z 1) (f32_of_Z 2) (f32_of_Z 5);
                mk3 (f32_of_Z 3) (f32_of_Z 4) (f32_of_Z 7)]]
              _ _ eq_refl eq_refl H
              0 (mk3 (f32_of_Z 1) (f32_of_Z 2) (f32_of_Z 5)) eq_refl)
    as [_ [Hz Hm]].
  split; [exact (Hz eq_refl)|].
  exact (Hm 1 (mk3 (f32_of_Z 3) (f32_of_Z 4) (f32_of_Z 7)) eq_refl).
Defined.

(** C2, as the design states it, fails: with a vertex that has an
    infinite coordinate, the root row of the returned joints holds a
    NaN and is not (0, 0, 0). *)
Lemma root_row_nan_for_infinite_root :
  exists jp jc mc,
    @get_coord F32 demo_img (list demo_img) demo_cfg demo_regressor 0%Z demo_model
       [[]] [[]]
       [[S754_infinity false; f32_of_Z 0; f32_of_Z 0;
         f32_of_Z 1; f32_of_Z 1; f32_of_Z 1]]
       [mk3 (f32_of_Z 0) (f32_of_Z 0) (f32_of_Z 1)]
    = Ok (jp, jc, mc) /\
    entry jc 0 0 = Some (mk3 S754_nan (S754_zero false) (S754_zero false)) /\
    entry jc 0 0 <> Some zero3.
Proof.
  do 3 eexists. split; [vm_compute; reflexivity|].
  split; [vm_compute; reflexivity | vm_compute; discriminate].
Qed.

(** C2, as the code has it.  In single precision and for every inner
    product of the batched matrix product: when [get_coord] returns,
    every sample has a root joint [r] among the regressed joints; the
    root row of the returned joints of the sample is [r - r], which is
    exactly (0, 0, 0) when the three coordinates of [r] are finite and
    is not (0, 0, 0) otherwise; and every vertex of the returned mesh
    of the sample is the body-model vertex minus that same [r]. *)
Theorem get_coord_root_row_zero_when_finite
    (dot : list float32 -> list float32 -> float32)
    (Img Feat : Type) (cfg : Config float64)
    (joint_regressor : list (list float32)) (root_joint_idx : Z)
    (m : @Model (F32_with dot) Img Feat)
    (rp p s : list (list float32)) (ct : list (V3 float32)) jp jc mc :
  @get_coord (F32_with dot) Img Feat cfg joint_regressor root_joint_idx m
             rp p s ct = Ok (jp, jc, mc) ->
  exists mesh_cam joint_cam k,
    smpl_layer m rp p s = Ok mesh_cam /\
    @bmm (F32_with dot) (repeat joint_regressor (length rp)) mesh_cam
    = Ok joint_cam /\
    norm_index (length joint_regressor) root_joint_idx = Ok k /\
    forall i, i < length rp ->
      exists r,
        entry joint_cam i k = Some r /\
        entry jc i k = Some (@v3_sub (F32_with dot) r r) /\
        (finite3 r = true -> entry jc i k = Some zero3) /\
        (finite3 r = false -> entry jc i k <> Some zero3) /\
        (forall j v, entry mesh_cam i j = Some v ->
                     entry mc i j = Some (@v3_sub (F32_with dot) v r)).
Proof.
  intros H.
  destruct (get_coord_inv _ _ _ _ _ _ _ _ H)
    as [mesh_cam [joint_cam [k [roots [Hl [Hlen [Hj [_ [Hk [Hr [-> ->]]]]]]]]]]].
  pose proof (mapM_length _ _ Hj) as Hjl.
  exists mesh_cam, joint_cam, k. repeat split; auto.
  - etransitivity; [apply (@bmm_repeat (F32_with dot))|].
    match goal with
    | |- (if ?c then _ else _) = _ =>
        assert (Hc : c = true) by (apply Nat.eqb_eq; symmetry; exact Hlen);
        rewrite Hc
    end.
    exact Hj.
  - intros i Hi.
    destruct (@nth_error_in_range _ joint_cam i) as [row Hrow].
    { eapply Nat.lt_le_trans; [exact Hi|].
      apply Nat.eq_le_incl. exact (eq_sym (eq_trans Hjl Hlen)). }
    edestruct (@mapM_select_nth (V3 float32)) as [r [Hrk Hri]];
      [exact Hr | exact Hrow |].
    assert (Her : entry joint_cam i k = Some r)
      by (unfold entry; rewrite Hrow; exact Hrk).
    assert (E : entry (zipw (fun row r0 =>
                               map (fun p0 => @v3_sub (F32_with dot) p0 r0) row)
                            joint_cam roots) i k
                = Some (@v3_sub (F32_with dot) r r))
      by exact (entry_zipw_map (fun p0 r0 => @v3_sub (F32_with dot) p0 r0)
                  joint_cam roots i k Her Hri).
    exists r. split; [exact Her|]. split; [exact E|]. split; [|split].
    + intros Hf. rewrite <- (@v3_sub_self r Hf). exact E.
    + intros Hf Hz.
      assert (E' : Some (@v3_sub (F32_with dot) r r) = Some zero3)
        by (rewrite <- E; exact Hz).
      injection E' as E0 E1 E2.
      change (f32_sub (c0 r) (c0 r) = S754_zero false) in E0.
      change (f32_sub (c1 r) (c1 r) = S754_zero false) in E1.
      change (f32_sub (c2 r) (c2 r) = S754_zero false) in E2.
      unfold finite3 in Hf.
      destruct (is_finite (c0 r)) eqn:F0;
        [|rewrite (@f32_sub_self_nan _ F0) in E0; discriminate].
      destruct (is_finite (c1 r)) eqn:F1;
        [|rewrite (@f32_sub_self_nan _ F1) in E1; discriminate].
      destruct (is_finite (c2 r)) eqn:F2;
        [discriminate|rewrite (@f32_sub_self_nan _ F2) in E2; discriminate].
    + intros j v Hv.
      exact (entry_zipw_map (fun p0 r0 => @v3_sub (F32_with dot) p0 r0)
               mesh_cam roots i j Hv Hri).
Qed.

Lemma get_coord_root_row_zero_when_finite_witness :
  exists jp jc mc,
    @get_coord F32 demo_img (list demo_img) demo_cfg demo_regressor 0%Z demo_model
       [[]; []] [[]; []]
       [map f32_of_Z [1; 2; 5; 3; 4; 7]%Z; map f32_of_Z [0; 0; 4; 2; 2; 6]%Z]
       [mk3 (f32_of_Z 0) (f32_of_Z 0) (f32_of_Z 1);
        mk3 (f32_of_Z 1) (f32_of_Z (-1)) (f32_of_Z 2)]
    = Ok (jp, jc, mc) /\
    entry jc 0 0 = Some zero3 /\ entry jc 1 0 = Some zero3 /\
    entry mc 1 1 = Some (mk3 (f32_of_Z 2) (f32_of_Z 2) (f32_of_Z 2)).
Proof.
  do 3 eexists.
  assert (H : @get_coord F32 demo_img (list demo_img) demo_cfg demo_regressor
                0%Z demo_model [[]; []] [[]; []]
                [map f32_of_Z [1; 2; 5; 3; 4; 7]%Z; map f32_of_Z [0; 0; 4; 2; 2; 6]%Z]
                [mk3 (f32_of_Z 0) (f32_of_Z 0) (f32_of_Z 1);
                 mk3 (f32_of_Z 1) (f32_of_Z (-1)) (f32_of_Z 2)]
              = Ok (_, _, _)) by (vm_compute; reflexivity).
  split; [exact H|].
  destruct (@get_coord_root_row_zero_when_finite f32_dot _ _ _ _ _ _ _ _ _ _ _ _ _ H)
    as [mesh_cam [joint_cam [k [Hl [Hb [Hk Hall]]]]]].
  injection Hl as <-. vm_compute in Hb. injection Hb as <-. injection Hk as <-.
  destruct (Hall 0 (Nat.lt_0_succ 1)) as [r0 [Hr0 [_ [Z0 _]]]].
  destruct (Hall 1 (Nat.lt_succ_diag_r 1)) as [r1 [Hr1 [_ [Z1 [_ M1]]]]].
  injection Hr0 as <-. injection Hr1 as <-.
  split; [exact (Z0 eq_refl)|]. split; [exact (Z1 eq_refl)|].
  exact (M1 1 (mk3 (f32_of_Z 2) (f32_of_Z 2) (f32_of_Z 6)) eq_refl).
Defined.

(** ** Normalising twice *)

Lemma mapM_nth_inv {A B} (f : A -> Result B) (l : list A) (r : list B) i b :
  mapM f l = Ok r -> nth_error r i = Some b ->
  exists a, nth_error l i = Some a /\ f a = Ok b.
Proof.
  revert r i; induction l as [|x l IH]; simpl; intros r i H Hi.
  - injection H as <-. destruct i; discriminate.
  - inv_bind H. inv_bind H. injection H as <-.
    destruct i as [|i]; simpl in *.
    + injection Hi as ->. eauto.
    + eauto.
Qed.

Lemma select_ok {A} (k : nat) (row : list A) (r : A) :
  select k row = Ok r -> nth_error row k = Some r.
Proof.
  unfold select. destruct (nth_error row k); [|discriminate].
  intros H; injection H as ->. reflexivity.
Qed.

Lemma zipw_cons {A B C} (f : A -> B -> C) a l1 b l2 :
  zipw f (a :: l1) (b :: l2) = f a b :: zipw f l1 l2.
Proof. reflexivity. Qed.

Section Idempotence.
Context {S : Scalar}.

(** The root joints of the normalised joints are the differences
    [r - r] of the root joints [r] of the input. *)
Lemma select_normalised (k : nat) (joint_cam : tensor3) (roots : list vec) :
  mapM (select k) joint_cam = Ok roots ->
  mapM (select k)
       (zipw (fun row r => map (fun p => v3_sub p r) row) joint_cam roots)
  = Ok (map (fun r => v3_sub r r) roots).
Proof.
  revert roots; induction joint_cam as [|row t IH]; simpl; intros roots H.
  - injection H as <-. reflexivity.
  - inv_bind H. inv_bind H. injection H as <-.
    rewrite zipw_cons. simpl. rewrite (IH _ Ha0).
    unfold select in *. rewrite nth_error_map.
    destruct (nth_error row k) as [p|]; [|discriminate].
    injection Ha as <-. reflexivity.
Qed.

(** Subtracting a vector that leaves every vector unchanged. *)
Lemma zipw_neutral (z : vec) (rows : tensor3) (roots : list vec) :
  (forall p, v3_sub p z = p) ->
  length rows = length roots ->
  (forall r, In r roots -> r = z) ->
  zipw (fun row r => map (fun p => v3_sub p r) row) rows roots = rows.
Proof.
  intros Hz. revert roots; induction rows as [|row t IH]; intros [|r roots] Hl Hr;
    simpl in *; try discriminate; [reflexivity|].
  rewrite zipw_cons. rewrite IH by (auto; lia).
  rewrite (Hr r) by auto. f_equal.
  rewrite <- (map_id row) at 2. apply map_ext. exact Hz.
Qed.

End Idempotence.

Lemma f32_sub_zero (x : float32) : f32_sub x (S754_zero false) = x.
Proof. destruct x as [[|]|[|]| |s m e]; reflexivity. Qed.

Lemma v3_sub_zero3 (p : V3 float32) : @v3_sub F32 p zero3 = p.
Proof.
  destruct p as [x y z]. unfold v3_sub, zero3. simpl.
  rewrite !f32_sub_zero. reflexivity.
Qed.

(** The result of the normalisation step is a fixed point of the step,
    when the root joints are finite. *)
Lemma root_relative_fixed_point
    (J : nat) (idx : Z) (k : nat)
    (joint_cam mesh_cam joint_cam' mesh_cam' : list (list (V3 float32))) :
  length mesh_cam = length joint_cam ->
  norm_index J idx = Ok k ->
  (forall i r, entry joint_cam i k = Some r -> finite3 r = true) ->
  @root_relative F32 J idx joint_cam mesh_cam = Ok (joint_cam', mesh_cam') ->
  @root_relative F32 J idx joint_cam' mesh_cam' = Ok (joint_cam', mesh_cam').
Proof.
  intros Hl Hk Hfin H.
  rewrite root_relative_same_batch in H by exact Hl.
  rewrite Hk in H. simpl in H.
  inv_bind H. rename a into roots. injection H as <- <-.
  pose proof (mapM_length _ _ Ha) as Hlen.
  assert (Hz : forall r, In r (map (fun r => @v3_sub F32 r r) roots) -> r = zero3).
  { intros r Hin. apply in_map_iff in Hin. destruct Hin as [r0 [<- Hin]].
    apply v3_sub_self.
    apply In_nth_error in Hin. destruct Hin as [i Hi].
    destruct (mapM_nth_inv _ _ _ Ha Hi) as [row [Hrow Hs]].
    apply (Hfin i). rewrite (@entry_nth _ joint_cam i k _ Hrow).
    exact (select_ok _ _ Hs). }
  assert (Hj : length joint_cam = length roots) by exact (eq_sym Hlen).
  assert (Hm : length mesh_cam = length roots) by exact (eq_trans Hl Hj).
  rewrite root_relative_same_batch
    by (rewrite (zipw_length _ _ _ Hj), (zipw_length _ _ _ Hm); exact Hl).
  rewrite Hk. simpl.
  rewrite (select_normalised _ _ Ha). simpl.
  rewrite (@zipw_neutral F32 zero3 (zipw _ joint_cam roots) (map _ roots))
    by (try exact v3_sub_zero3; try exact Hz;
        rewrite length_map, (zipw_length _ _ _ Hj); exact Hj).
  rewrite (@zipw_neutral F32 zero3 (zipw _ mesh_cam roots) (map _ roots))
    by (try exact v3_sub_zero3; try exact Hz;
        rewrite length_map, (zipw_length _ _ _ Hm); exact Hm).
  reflexivity.
Qed.

(** X2. In single precision, on joints and a mesh of one batch size
    whose root joints have finite coordinates, the normalisation step
    applied to its own result returns that result again. *)
Theorem root_relative_idempotent_on_finite_roots
    (J : nat) (idx : Z) (k : nat)
    (joint_cam mesh_cam joint_cam' mesh_cam' : list (list (V3 float32))) :
  length mesh_cam = length joint_cam ->
  norm_index J idx = Ok k ->
  (forall i r, entry joint_cam i k = Some r -> finite3 r = true) ->
  @root_relative F32 J idx joint_cam mesh_cam = Ok (joint_cam', mesh_cam') ->
  @root_relative F32 J idx joint_cam' mesh_cam' = Ok (joint_cam', mesh_cam').
Proof.
  intros Hl Hk Hfin H.
  rewrite root_relative_same_batch in H by exact Hl.
  rewrite Hk in H. simpl in H.
  inv_bind H. rename a into roots. injection H as <- <-.
  pose proof (mapM_length _ _ Ha) as Hlen.
  assert (Hz : forall r, In r (map (fun r => @v3_sub F32 r r) roots) -> r = zero3).
  { intros r Hin. apply in_map_iff in Hin. destruct Hin as [r0 [<- Hin]].
    apply v3_sub_self.
    apply In_nth_error in Hin. destruct Hin as [i Hi].
    destruct (mapM_nth_inv _ _ _ Ha Hi) as [row [Hrow Hs]].
    apply (Hfin i). rewrite (@entry_nth _ joint_cam i k _ Hrow).
    exact (select_ok _ _ Hs). }
  assert (Hj : length joint_cam = length roots) by exact (eq_sym Hlen).
  assert (Hm : length mesh_cam = length roots) by exact (eq_trans Hl Hj).
  rewrite root_relative_same_batch
    by (rewrite (zipw_length _ _ _ Hj), (zipw_length _ _ _ Hm); exact Hl).
  rewrite Hk. simpl.
  rewrite (select_normalised _ _ Ha). simpl.
  rewrite (@zipw_neutral F32 zero3 (zipw _ joint_cam roots) (map _ roots))
    by (try exact v3_sub_zero3; try exact Hz;
        rewrite length_map, (zipw_length _ _ _ Hj); exact Hj).
  rewrite (@zipw_neutral F32 zero3 (zipw _ mesh_cam roots) (map _ roots))
    by (try exact v3_sub_zero3; try exact Hz;
        rewrite length_map, (zipw_length _ _ _ Hm); exact Hm).
  reflexivity.
Qed.

Lemma root_relative_idempotent_on_finite_roots_witness :
  exists jc' mc',
    @root_relative F32 2 0%Z
      [[mk3 (f32_of_Z 1) (f32_of_Z 2) (f32_of_Z 5);
        mk3 (f32_of_Z 2) (f32_of_Z 3) (f32_of_Z 6)]]
      [[mk3 (f32_of_Z 1) (f32_of_Z 2) (f32_of_Z 5);
        mk3 (f32_of_Z 3) (f32_of_Z 4) (f32_of_Z 7)]]
    = Ok (jc', mc') /\
    @root_relative F32 2 0%Z jc' mc' = Ok (jc', mc').
Proof.
  do 2 eexists.
  assert (H : @root_relative F32 2 0%Z
      [[mk3 (f32_of_Z 1) (f32_of_Z 2) (f32_of_Z 5);
        mk3 (f32_of_Z 2) (f32_of_Z 3) (f32_of_Z 6)]]
      [[mk3 (f32_of_Z 1) (f32_of_Z 2) (f32_of_Z 5);
        mk3 (f32_of_Z 3) (f32_of_Z 4) (f32_of_Z 7)]]
    = Ok (_, _)) by (vm_compute; reflexivity).
  split; [exact H|].
  refine (@root_relative_idempotent_on_finite_roots 2 0%Z 0 _ _ _ _ _ _ _ H).
  - reflexivity.
  - reflexivity.
  - intros [|[|i]] r Hr; vm_compute in Hr; try discriminate.
    injection Hr as <-. reflexivity.
Defined.

(** C6, as the design states it, fails: with a root joint that has an
    infinite coordinate, the first pass turns the finite coordinate of
    the other joint into an infinity and the second pass turns it into
    a NaN. *)
Lemma root_relative_twice_differs :
  exists jc' mc' jc'' mc'',
    @root_relative F32 2 0%Z
      [[mk3 (S754_infinity false) (f32_of_Z 0) (f32_of_Z 0);
        mk3 (f32_of_Z 1) (f32_of_Z 1) (f32_of_Z 1)]]
      [[mk3 (f32_of_Z 2) (f32_of_Z 2) (f32_of_Z 2)]]
    = Ok (jc', mc') /\
    @root_relative F32 2 0%Z jc' mc' = Ok (jc'', mc'') /\
    entry jc' 0 1 = Some (mk3 (S754_infinity true) (f32_of_Z 1) (f32_of_Z 1)) /\
    entry jc'' 0 1 = Some (mk3 S754_nan (f32_of_Z 1) (f32_of_Z 1)) /\
    entry mc' 0 0 = Some (mk3 (S754_infinity true) (f32_of_Z 2) (f32_of_Z 2)) /\
    entry mc'' 0 0 = Some (mk3 S754_nan (f32_of_Z 2) (f32_of_Z 2)) /\
    (jc'', mc'') <> (jc', mc').
Proof.
  do 4 eexists.
  split; [vm_compute; reflexivity|].
  split; [vm_compute; reflexivity|].
  repeat split; try (vm_compute; reflexivity).
  vm_compute. discriminate.
Qed.

(** C6, as the code has it.  In single precision, on joints and a mesh
    of one batch size whose root joints have finite coordinates, the
    normalisation step applied twice gives exactly what it gives
    applied once: the same joints and mesh, or the same exception. *)
Theorem root_relative_twice_is_once_on_finite_roots
    (J : nat) (idx : Z) (k : nat)
    (joint_cam mesh_cam : list (list (V3 float32))) :
  length mesh_cam = length joint_cam ->
  norm_index J idx = Ok k ->
  (forall i r, entry joint_cam i k = Some r -> finite3 r = true) ->
  (once <- @root_relative F32 J idx joint_cam mesh_cam ;;
   @root_relative F32 J idx (fst once) (snd once))
  = @root_relative F32 J idx joint_cam mesh_cam.
Proof.
  intros Hl Hk Hfin.
  destruct (@root_relative F32 J idx joint_cam mesh_cam) as [[jc' mc']|e] eqn:H;
    cbn [bind fst snd]; [|reflexivity].
  exact (@root_relative_fixed_point J idx k joint_cam mesh_cam jc' mc'
           Hl Hk Hfin H).
Qed.

Lemma root_relative_twice_is_once_on_finite_roots_witness :
  (once <- @root_relative F32 2 0%Z
             [[mk3 (f32_of_Z 1) (f32_of_Z 2) (f32_of_Z 5);
               mk3 (f32_of_Z 2) (f32_of_Z 3) (f32_of_Z 6)]]
             [[mk3 (f32_of_Z 1) (f32_of_Z 2) (f32_of_Z 5);
               mk3 (f32_of_Z 3) (f32_of_Z 4) (f32_of_Z 7)]] ;;
   @root_relative F32 2 0%Z (fst once) (snd once))
  = @root_relative F32 2 0%Z
      [[mk3 (f32_of_Z 1) (f32_of_Z 2) (f32_of_Z 5);
        mk3 (f32_of_Z 2) (f32_of_Z 3) (f32_of_Z 6)]]
      [[mk3 (f32_of_Z 1) (f32_of_Z 2) (f32_of_Z 5);
        mk3 (f32_of_Z 3) (f32_of_Z 4) (f32_of_Z 7)]].
Proof.
  refine (@root_relative_twice_is_once_on_finite_roots 2 0%Z 0
            [[mk3 (f32_of_Z 1) (f32_of_Z 2) (f32_of_Z 5);
              mk3 (f32_of_Z 2) (f32_of_Z 3) (f32_of_Z 6)]]
            [[mk3 (f32_of_Z 1) (f32_of_Z 2) (f32_of_Z 5);
              mk3 (f32_of_Z 3) (f32_of_Z 4) (f32_of_Z 7)]]
            eq_refl eq_refl _).
  intros [|[|i]] r Hr; vm_compute in Hr; try discriminate.
  injection Hr as <-. reflexivity.
Defined.

(** ** The camera translation *)

Lemma map_combine_map {A B C D} (f : A -> B) (g : A -> C) (h : B * C -> D)
    (l : list A) :
  map h (combine (map f l) (map g l)) = map (fun a => h (f a, g a)) l.
Proof.
  induction l as [|a l IH]; simpl; [reflexivity|]. rewrite IH. reflexivity.
Qed.

Lemma get_camera_trans_ok (S : Scalar) (cfg : Config pyfloat) (k : pyfloat)
    (cam_param : list vec) :
  k_value cfg = Ok k ->
  get_camera_trans cfg cam_param
  = Ok (map (fun p => mk3 (c0 p) (c1 p) (t_mul (as_elt k) (t_sigmoid (c2 p))))
            cam_param).
Proof.
  intros Hk. unfold get_camera_trans. rewrite Hk. simpl.
  rewrite (map_map (fun p => t_sigmoid (c2 p))).
  rewrite (map_combine_map (fun p => (c0 p, c1 p))
             (fun p => t_mul (as_elt k) (t_sigmoid (c2 p)))).
  reflexivity.
Qed.

(** X3. When the constant k of the configuration is defined,
    [get_camera_trans] returns one translation per raw camera vector:
    its first two components are those of the raw vector, unchanged,
    and its third is k (as a tensor element) times the sigmoid of the
    raw third component. *)
Theorem get_camera_trans_copies_xy_scales_sigmoid
    (S : Scalar) (cfg : Config pyfloat) (k : pyfloat) (cam_param : list vec) :
  k_value cfg = Ok k ->
  exists out,
    get_camera_trans cfg cam_param = Ok out /\
    length out = length cam_param /\
    forall i p,
      nth_error cam_param i = Some p ->
      nth_error out i
      = Some (mk3 (c0 p) (c1 p) (t_mul (as_elt k) (t_sigmoid (c2 p)))).
Proof.
  intros Hk. eexists. split; [apply (@get_camera_trans_ok S cfg k cam_param Hk)|].
  split; [apply length_map|].
  intros i p Hi.
  exact (map_nth_error
           (fun p => mk3 (c0 p) (c1 p) (t_mul (as_elt k) (t_sigmoid (c2 p))))
           i cam_param Hi).
Qed.

(** The constant k of the demo configuration: 2500 / 256 = 9.765625. *)
Definition demo_k : float64 := S754_finite false 5497558138880000 (-49).

Lemma demo_k_value : @k_value F32 demo_cfg = Ok demo_k.
Proof. vm_compute. reflexivity. Qed.

Lemma get_camera_trans_copies_xy_scales_sigmoid_witness :
  exists out,
    @get_camera_trans F32 demo_cfg
      [mk3 (f32_of_Z 1) (f32_of_Z (-1)) (f32_of_Z 0)] = Ok out /\
    length out = 1 /\
    forall i p,
      nth_error [mk3 (f32_of_Z 1) (f32_of_Z (-1)) (f32_of_Z 0)] i = Some p ->
      nth_error out i
      = Some (mk3 (c0 p) (c1 p) (f32_mul (f32_of_f64 demo_k) (sigmoid32 (c2 p)))).
Proof.
  exact (@get_camera_trans_copies_xy_scales_sigmoid F32 demo_cfg demo_k
           [mk3 (f32_of_Z 1) (f32_of_Z (-1)) (f32_of_Z 0)] demo_k_value).
Defined.

(** The sigmoid in single precision is exactly 0 at every x <= -128:
    exp(-x) overflows to +infinity. *)
Lemma sigmoid32_large_negative (m : positive) (e : Z) :
  mag_ge_128 m e = true -> sigmoid32 (S754_finite true m e) = S754_zero false.
Proof.
  intros H. unfold sigmoid32. cbn [SFopp negb]. unfold exp32.
  rewrite H. reflexivity.
Qed.


Lemma f32_mul_zero (x : float32) :
  is_finite x = true -> is_zero (f32_mul x (S754_zero false)) = true.
Proof. destruct x as [[|]|[|]| |s m e]; try discriminate; reflexivity. Qed.

(** X4. In single precision, with a finite constant k: a raw camera
    vector whose third component is a finite number x <= -128 gets a
    depth t_z that is a zero, not a positive number. *)
Theorem get_camera_trans_depth_zero_at_large_negative
    (cfg : Config float64) (k : float64) (cam_param out : list (V3 float32))
    (i : nat) (tx ty : float32) (m : positive) (e : Z) :
  @k_value F32 cfg = Ok k ->
  is_finite (f32_of_f64 k) = true ->
  mag_ge_128 m e = true ->
  nth_error cam_param i = Some (mk3 tx ty (S754_finite true m e)) ->
  @get_camera_trans F32 cfg cam_param = Ok out ->
  exists tz, nth_error out i = Some (mk3 tx ty tz) /\ is_zero tz = true.
Proof.
  intros Hk Hf Hm Hi H.
  rewrite (@get_camera_trans_ok F32 cfg k cam_param Hk) in H. injection H as <-.
  eexists. split.
  - exact (map_nth_error _ i cam_param Hi).
  - simpl. rewrite (sigmoid32_large_negative _ _ Hm).
    apply f32_mul_zero. exact Hf.
Qed.

Lemma get_camera_trans_depth_zero_at_large_negative_witness :
  exists tz,
    nth_error
      [mk3 (f32_of_Z 1) (f32_of_Z (-1)) (f32_mul (f32_of_f64 demo_k) (S754_zero false))]
      0
    = Some (mk3 (f32_of_Z 1) (f32_of_Z (-1)) tz) /\ is_zero tz = true.
Proof.
  refine (@get_camera_trans_depth_zero_at_large_negative demo_cfg demo_k
            [mk3 (f32_of_Z 1) (f32_of_Z (-1)) (f32_of_Z (-200))] _ 0
            (f32_of_Z 1) (f32_of_Z (-1)) 13107200 (-16)
            demo_k_value eq_refl eq_refl eq_refl _).
  vm_compute. reflexivity.
Defined.

(** ** Shapes and failures of the projection *)

Lemma broadcast_mismatch {A B C} (f : A -> B -> Result C) l1 l2 :
  length l1 <> length l2 -> length l1 <> 1 -> length l2 <> 1 ->
  broadcast f l1 l2 = Raise RuntimeError.
Proof.
  intros H H1 H2. unfold broadcast.
  destruct (Nat.eqb (length l1) (length l2)) eqn:E.
  - apply Nat.eqb_eq in E. contradiction.
  - destruct l1 as [|a [|a' l1]]; destruct l2 as [|b [|b' l2]];
      simpl in *; try reflexivity; exfalso; auto.
Qed.

(** X5. On joints of shape (B, J, 3) and camera translations of the
    same batch size B, the projection returns, whatever the coordinates
    and depths are, and its result has shape (B, J): one row per sample
    and one point per joint. *)
Theorem project_returns_on_equal_batches
    (S : Scalar) (cfg : Config pyfloat) (joint_cam : tensor3) (cam_trans : list vec) :
  length joint_cam = length cam_trans ->
  exists joint_proj,
    project cfg joint_cam cam_trans = Ok joint_proj /\
    length joint_proj = length joint_cam /\
    forall i row,
      nth_error joint_cam i = Some row ->
      exists points, nth_error joint_proj i = Some points /\
                     length points = length row.
Proof.
  intros H. eexists. split; [apply (project_same_batch cfg _ _ H)|].
  split; [apply (zipw_length _ _ _ H)|].
  intros i row Hi.
  destruct (@nth_error_in_range vec cam_trans i) as [t Ht].
  { rewrite <- H. apply nth_error_Some. rewrite Hi. discriminate. }
  eexists. split.
  - exact (zipw_nth (fun row t => map (fun p => proj_point cfg p t) row)
             _ _ _ Hi Ht).
  - apply length_map.
Qed.

Lemma project_returns_on_equal_batches_witness :
  exists joint_proj,
    @project F32 demo_cfg
      [[mk3 (f32_of_Z 0) (f32_of_Z 0) (f32_of_Z 0);
        mk3 (f32_of_Z 1) (f32_of_Z 1) (f32_of_Z 0)]]
      [mk3 (f32_of_Z 0) (f32_of_Z 0) (f32_of_Z 0)] = Ok joint_proj /\
    length joint_proj = 1 /\
    forall i row,
      nth_error [[mk3 (f32_of_Z 0) (f32_of_Z 0) (f32_of_Z 0);
                  mk3 (f32_of_Z 1) (f32_of_Z 1) (f32_of_Z 0)]] i = Some row ->
      exists points, nth_error joint_proj i = Some points /\
                     length points = length row.
Proof.
  exact (@project_returns_on_equal_batches F32 demo_cfg
           [[mk3 (f32_of_Z 0) (f32_of_Z 0) (f32_of_Z 0);
             mk3 (f32_of_Z 1) (f32_of_Z 1) (f32_of_Z 0)]]
           [mk3 (f32_of_Z 0) (f32_of_Z 0) (f32_of_Z 0)] eq_refl).
Defined.

(** X6. When the batch sizes of the joints and of the camera
    translations differ and neither is 1, the projection raises
    RuntimeError: the two cannot be broadcast. *)
Theorem project_raises_on_batch_mismatch
    (S : Scalar) (cfg : Config pyfloat) (joint_cam : tensor3) (cam_trans : list vec) :
  length joint_cam <> length cam_trans ->
  length joint_cam <> 1 -> length cam_trans <> 1 ->
  project cfg joint_cam cam_trans = Raise RuntimeError.
Proof.
  intros H H1 H2. unfold project, tensor2_op.
  rewrite broadcast_mismatch by (rewrite ?length_map; assumption).
  reflexivity.
Qed.

Lemma project_raises_on_batch_mismatch_witness :
  @project F32 demo_cfg
    [[mk3 (f32_of_Z 0) (f32_of_Z 0) (f32_of_Z 5)];
     [mk3 (f32_of_Z 1) (f32_of_Z 1) (f32_of_Z 5)]]
    [mk3 (f32_of_Z 0) (f32_of_Z 0) (f32_of_Z 1);
     mk3 (f32_of_Z 0) (f32_of_Z 0) (f32_of_Z 1);
     mk3 (f32_of_Z 0) (f32_of_Z 0) (f32_of_Z 1)]
  = Raise RuntimeError.
Proof.
  apply (@project_raises_on_batch_mismatch F32); simpl; lia.
Defined.

(** ** Failures of [get_coord] *)

Lemma norm_index_range (n : nat) (i : Z) (k : nat) :
  norm_index n i = Ok k -> (- Z.of_nat n <= i < Z.of_nat n)%Z.
Proof.
  unfold norm_index.
  destruct (0 <=? i)%Z eqn:H0.
  - destruct (i <? Z.of_nat n)%Z eqn:H1; [|discriminate]. intros _. lia.
  - destruct (0 <=? i + Z.of_nat n)%Z eqn:H1; [|discriminate]. intros _. lia.
Qed.

Lemma norm_index_out_of_range (n : nat) (i : Z) :
  (i < - Z.of_nat n \/ Z.of_nat n <= i)%Z -> norm_index n i = Raise IndexError.
Proof.
  intros H. unfold norm_index.
  destruct (0 <=? i)%Z eqn:H0.
  - destruct (i <? Z.of_nat n)%Z eqn:H1; [lia|reflexivity].
  - destruct (0 <=? i + Z.of_nat n)%Z eqn:H1; [lia|reflexivity].
Qed.

(** X7. When the body model returns a batch of meshes whose size is
    not the batch size of the root pose, [get_coord] raises
    RuntimeError: the batched product with the repeated joint
    regressor rejects it, and nothing is projected. *)
Theorem get_coord_raises_on_mesh_batch_mismatch
    (S : Scalar) (Img Feat : Type) (cfg : Config pyfloat)
    (joint_regressor : list (list elt)) (root_joint_idx : Z)
    (m : Model Img Feat)
    (smpl_root_pose smpl_pose smpl_shape : tensor2) (cam_trans : list vec)
    (mesh_cam : tensor3) :
  smpl_layer m smpl_root_pose smpl_pose smpl_shape = Ok mesh_cam ->
  length mesh_cam <> length smpl_root_pose ->
  get_coord cfg joint_regressor root_joint_idx m
            smpl_root_pose smpl_pose smpl_shape cam_trans
  = Raise RuntimeError.
Proof.
  intros Hl Hn. unfold get_coord. rewrite Hl. simpl.
  rewrite bmm_repeat.
  destruct (Nat.eqb (length smpl_root_pose) (length mesh_cam)) eqn:E.
  - apply Nat.eqb_eq in E. exfalso. apply Hn. symmetry. exact E.
  - reflexivity.
Qed.

Lemma get_coord_raises_on_mesh_batch_mismatch_witness :
  @get_coord F32 demo_img (list demo_img) demo_cfg demo_regressor 0%Z demo_model
    [[]; []] [[]; []] [map f32_of_Z [1; 2; 5; 3; 4; 7]%Z]
    [mk3 (f32_of_Z 0) (f32_of_Z 0) (f32_of_Z 1);
     mk3 (f32_of_Z 0) (f32_of_Z 0) (f32_of_Z 1)]
  = Raise RuntimeError.
Proof.
  refine (@get_coord_raises_on_mesh_batch_mismatch F32 demo_img (list demo_img)
            demo_cfg demo_regressor 0%Z demo_model
            [[]; []] [[]; []] [map f32_of_Z [1; 2; 5; 3; 4; 7]%Z] _ _ eq_refl _).
  simpl. lia.
Defined.

(** X8. When the root joint index lies outside [-J, J), J the number
    of rows of the joint regressor, the normalisation step raises
    IndexError on every input, and [get_coord] returns on none. *)
Theorem get_coord_rejects_root_index_out_of_range
    (S : Scalar) (Img Feat : Type) (cfg : Config pyfloat)
    (joint_regressor : list (list elt)) (root_joint_idx : Z) :
  (root_joint_idx < - Z.of_nat (length joint_regressor) \/
   Z.of_nat (length joint_regressor) <= root_joint_idx)%Z ->
  (forall joint_cam mesh_cam,
     root_relative (length joint_regressor) root_joint_idx joint_cam mesh_cam
     = Raise IndexError) /\
  (forall (m : Model Img Feat) smpl_root_pose smpl_pose smpl_shape cam_trans r,
     get_coord cfg joint_regressor root_joint_idx m
               smpl_root_pose smpl_pose smpl_shape cam_trans <> Ok r).
Proof.
  intros H. split.
  - intros jc mc. unfold root_relative, index_dim1.
    rewrite (@norm_index_out_of_range _ _ H). reflexivity.
  - intros m rp p s ct [[jp jc] mc] Hg.
    destruct (get_coord_inv _ _ _ _ _ _ _ _ Hg)
      as [mesh_cam [joint_cam [k [roots [_ [_ [_ [_ [Hk _]]]]]]]]].
    apply norm_index_range in Hk. lia.
Qed.

Lemma get_coord_rejects_root_index_out_of_range_witness :
  (forall joint_cam mesh_cam,
     @root_relative F32 (length demo_regressor) 2%Z joint_cam mesh_cam
     = Raise IndexError) /\
  (forall (m : @Model F32 demo_img (list demo_img))
          smpl_root_pose smpl_pose smpl_shape cam_trans r,
     @get_coord F32 demo_img (list demo_img) demo_cfg demo_regressor 2%Z m
                smpl_root_pose smpl_pose smpl_shape cam_trans <> Ok r).
Proof.
  apply (@get_coord_rejects_root_index_out_of_range F32 demo_img (list demo_img)
           demo_cfg demo_regressor 2%Z).
  right. simpl. lia.
Defined.

(** ** Batch sizes through [forward] *)

Lemma take_rows_length {A} (b w : nat) (l : list A) :
  length (take_rows b w l) = b.
Proof.
  revert l; induction b as [|b IH]; intros l; simpl; [reflexivity|].
  rewrite IH. reflexivity.
Qed.

Lemma reshape_b_m1_length {A} (b : nat) (t r : list (list A)) :
  reshape_b_m1 b t = Ok r -> length r = b.
Proof.
  unfold reshape_b_m1. destruct b as [|b]; [discriminate|].
  destruct (Nat.eqb _ 0); [|discriminate].
  intros H. injection H as <-. simpl. f_equal. apply take_rows_length.
Qed.

Lemma zipw_nth_inv {A B C} (f : A -> B -> C) l1 l2 i c :
  nth_error (zipw f l1 l2) i = Some c ->
  exists a b, nth_error l1 i = Some a /\ nth_error l2 i = Some b /\ c = f a b.
Proof.
  revert l2 i; induction l1 as [|x l1 IH]; intros [|y l2] i H;
    try (destruct i; discriminate).
  rewrite zipw_cons in H. destruct i as [|i]; simpl in *.
  - injection H as <-. eauto.
  - apply IH. exact H.
Qed.

(** X9. When [forward] returns, the mesh, the joints and the pose it
    returns have one sample per input image, and every sample of the
    joints has one joint per row of the joint regressor. *)
Theorem forward_output_batch_sizes
    (S : Scalar) (Img Feat : Type) (cfg : Config pyfloat)
    (joint_regressor : list (list elt)) (root_joint_idx : Z)
    (rot6d_to_axis_angle : tensor2 -> Result tensor2)
    (m : Model Img Feat) (inp_img : list Img)
    mesh_cam joint_cam joint_proj smpl_pose smpl_shape :
  forward cfg joint_regressor root_joint_idx rot6d_to_axis_angle m inp_img
  = Ok (mesh_cam, joint_cam, joint_proj, smpl_pose, smpl_shape) ->
  length mesh_cam = length inp_img /\
  length joint_cam = length inp_img /\
  length smpl_pose = length inp_img /\
  forall i joints, nth_error joint_cam i = Some joints ->
                   length joints = length joint_regressor.
Proof.
  unfold forward. intros H.
  destruct (head m (backbone m inp_img)) as [[pose6d shape] raw_cam].
  inv_bind H. inv_bind H. inv_bind H. inv_bind H. inv_bind H.
  destruct a3 as [[jp jc] mc]. injection H as <- <- <- <- <-.
  apply reshape_b_m1_length in Ha1.
  destruct (get_coord_inv _ _ _ _ _ _ _ _ Ha3)
    as [mesh0 [joint0 [k [roots [_ [Hlen [Hj [_ [_ [Hr [-> ->]]]]]]]]]]].
  pose proof (mapM_length _ _ Hj) as Hjl.
  pose proof (mapM_length _ _ Hr) as Hrl.
  rewrite length_map in Hlen.
  unfold tensor3, tensor2, vec in *.
  repeat split; try assumption.
  - rewrite zipw_length; lia.
  - rewrite zipw_length; lia.
  - intros i joints Hi.
    apply zipw_nth_inv in Hi. destruct Hi as [row [r [Hrow [_ ->]]]].
    rewrite length_map.
    destruct (mapM_nth_inv _ _ _ Hj Hrow) as [mesh [_ Hm]].
    exact (mapM_length _ _ Hm).
Qed.

Lemma forward_output_batch_sizes_witness :
  exists mesh_cam joint_cam joint_proj smpl_pose smpl_shape,
    @forward F32 demo_img (list demo_img) demo_cfg demo_regressor 0%Z
             demo_rot6d demo_model demo_input
    = Ok (mesh_cam, joint_cam, joint_proj, smpl_pose, smpl_shape) /\
    length mesh_cam = 2 /\ length joint_cam = 2 /\ length smpl_pose = 2 /\
    forall i joints, nth_error joint_cam i = Some joints -> length joints = 2.
Proof.
  do 5 eexists.
  assert (H : @forward F32 demo_img (list demo_img) demo_cfg demo_regressor 0%Z
                demo_rot6d demo_model demo_input
              = Ok (_, _, _, _, _)) by (vm_compute; reflexivity).
  split; [exact H|].
  exact (@forward_output_batch_sizes F32 demo_img (list demo_img) demo_cfg
           demo_regressor 0%Z demo_rot6d demo_model demo_input _ _ _ _ _ H).
Defined.

(** X10. When the number of pose entries the head produces is not a
    multiple of 6, [forward] raises RuntimeError at the reshape to rows
    of six: the rotation converter and the body model are not reached. *)
Theorem forward_raises_on_pose_size
    (S : Scalar) (Img Feat : Type) (cfg : Config pyfloat)
    (joint_regressor : list (list elt)) (root_joint_idx : Z)
    (rot6d_to_axis_angle : tensor2 -> Result tensor2)
    (m : Model Img Feat) (inp_img : list Img) :
  length (concat (fst (fst (head m (backbone m inp_img))))) mod 6 <> 0 ->
  forward cfg joint_regressor root_joint_idx rot6d_to_axis_angle m inp_img
  = Raise RuntimeError.
Proof.
  unfold forward. intros H.
  destruct (head m (backbone m inp_img)) as [[pose6d shape] raw_cam].
  simpl in H. unfold reshape_m1_6.
  destruct (Nat.eqb (length (concat pose6d) mod 6) 0) eqn:E.
  - apply Nat.eqb_eq in E. contradiction.
  - reflexivity.
Qed.

Lemma forward_raises_on_pose_size_witness :
  @forward F32 demo_img (list demo_img) demo_cfg demo_regressor 0%Z
           demo_rot6d demo_model
           [(map f32_of_Z [1; 0; 0; 0; 1]%Z, map f32_of_Z [1; 2; 5; 3; 4; 7]%Z,
             mk3 (f32_of_Z 0) (f32_of_Z 0) (f32_of_Z 0))]
  = Raise RuntimeError.
Proof.
  apply (@forward_raises_on_pose_size F32).
  simpl. discriminate.
Defined.

(** * Loading the backbone from a checkpoint ([transfer_backbone]) *)

(** ** Python strings and ordered dictionaries *)

(** [sub in s] *)
Fixpoint str_contains (sub s : String.string) : bool :=
  String.prefix sub s ||
  match s with
  | String.EmptyString => false
  | String.String _ s' => str_contains sub s'
  end.

(** [s.replace(old, new)] for a non-empty [old]: the occurrences of
    [old] are found from the left and do not overlap; [skip] counts the
    characters of the occurrence being replaced that are still to be
    dropped. *)
Fixpoint replace_from (old new : String.string) (skip : nat) (s : String.string)
  : String.string :=
  match s with
  | String.EmptyString => String.EmptyString
  | String.String c s' =>
      match skip with
      | S n => replace_from old new n s'
      | O =>
          if String.prefix old s
          then String.append new (replace_from old new (String.length old - 1) s')
          else String.String c (replace_from old new 0 s')
      end
  end.

(** With an empty [old], Python puts [new] before every character and
    at the end. *)
Fixpoint interleave (new s : String.string) : String.string :=
  match s with
  | String.EmptyString => new
  | String.String c s' => String.append new (String.String c (interleave new s'))
  end.

Definition str_replace (old new s : String.string) : String.string :=
  match old with
  | String.EmptyString => interleave new s
  | String.String _ _ => replace_from old new 0 s
  end.

(** An [OrderedDict] with string keys: the entries in insertion order,
    one per key. *)
Definition odict (V : Type) : Type := list (String.string * V).

(** [d[k] = v]: an existing key keeps its place and gets the new value,
    a new key goes to the end. *)
Fixpoint od_set {V} (k : String.string) (v : V) (d : odict V) : odict V :=
  match d with
  | [] => [(k, v)]
  | (k', v') :: d' =>
      if String.eqb k' k then (k', v) :: d' else (k', v') :: od_set k v d'
  end.

(** [d.get(k)] *)
Fixpoint od_get {V} (k : String.string) (d : odict V) : option V :=
  match d with
  | [] => None
  | (k', v') :: d' => if String.eqb k' k then Some v' else od_get k d'
  end.

(** ** The function *)

(** The loop of lines 116-120: the checkpoint entries whose key
    contains 'backbone', under the key with every 'backbone.' removed. *)
Definition new_state_dict {V} (checkpoint : odict V) : odict V :=
  fold_left
    (fun new_state_dict kv =>
       let k := fst kv in
       let v := snd kv in
       if str_contains "backbone"%string k
       then let name := str_replace "backbone."%string String.EmptyString k in
            od_set name v new_state_dict
       else new_state_dict)
    checkpoint [].

Section TransferBackbone.
Context {S : Scalar}.
Variable Img Feat : Type.
Variable V : Type.   (* the tensors of a state dict *)

(** [backbone.load_state_dict]: of the module library; it gives the
    backbone with the loaded weights or raises. *)
Variable load_state_dict : (list Img -> Feat) -> odict V -> Result (list Img -> Feat).

(** [transfer_backbone]; the model after the call is the result. *)
Definition transfer_backbone (model : Model Img Feat) (checkpoint : odict V)
  : Result (Model Img Feat) :=
  b <- load_state_dict (backbone model) (new_state_dict checkpoint) ;;
  Ok {| backbone := b;
        head := head model;
        smpl_layer := smpl_layer model;
        trainable_modules := trainable_modules model |}.

End TransferBackbone.

(** ** Facts on strings and ordered dictionaries *)

Lemma prefix_append (t s : String.string) :
  String.prefix t (String.append t s) = true.
Proof.
  induction t as [|a t IH]; simpl; [destruct s; reflexivity|].
  destruct (Ascii.ascii_dec a a) as [_|N]; [exact IH | contradiction].
Qed.

Lemma replace_from_skip (old new t s : String.string) :
  replace_from old new (String.length t) (String.append t s)
  = replace_from old new 0 s.
Proof.
  induction t as [|a t IH]; simpl.
  - destruct s; reflexivity.
  - exact IH.
Qed.

(** A string without an occurrence of [old] is returned as it is. *)
Lemma str_replace_absent (old new s : String.string) :
  str_contains old s = false -> str_replace old new s = s.
Proof.
  destruct old as [|a o].
  - destruct s; simpl; discriminate.
  - unfold str_replace. induction s as [|c s IH]; intros H; [reflexivity|].
    cbn [str_contains] in H. apply orb_false_elim in H. destruct H as [Hp Hc].
    cbn [replace_from]. rewrite Hp. f_equal. exact (IH Hc).
Qed.

(** An occurrence at the start is replaced and the scan goes on behind it. *)
Lemma str_replace_at_start (a : Ascii.ascii) (o new s : String.string) :
  str_replace (String.String a o) new (String.append (String.String a o) s)
  = String.append new (str_replace (String.String a o) new s).
Proof.
  unfold str_replace.
  change (String.append (String.String a o) s)
    with (String.String a (String.append o s)).
  cbn [replace_from].
  change (String.String a (String.append o s))
    with (String.append (String.String a o) s).
  rewrite prefix_append. f_equal.
  replace (String.length (String.String a o) - 1) with (String.length o)
    by (simpl; lia).
  apply replace_from_skip.
Qed.

Lemma od_get_set {V} (n k : String.string) (v : V) (d : odict V) :
  od_get n (od_set k v d) = if String.eqb k n then Some v else od_get n d.
Proof.
  induction d as [|[k' v'] d IH]; simpl; [reflexivity|].
  destruct (String.eqb_spec k' k) as [->|Hk]; simpl.
  - destruct (String.eqb k n); reflexivity.
  - rewrite IH. destruct (String.eqb_spec k n) as [->|Hn]; [|reflexivity].
    destruct (String.eqb_spec k' n) as [->|_]; [contradiction|reflexivity].
Qed.

Lemma od_get_app {V} (n : String.string) (d1 d2 : odict V) :
  od_get n (d1 ++ d2)
  = match od_get n d1 with Some v => Some v | None => od_get n d2 end.
Proof.
  induction d1 as [|[k v] d1 IH]; simpl; [reflexivity|].
  destruct (String.eqb k n); [reflexivity | exact IH].
Qed.

Lemma od_set_In {V} (k k' : String.string) (v : V) (d : odict V) :
  In k' (map fst (od_set k v d)) -> k' = k \/ In k' (map fst d).
Proof.
  induction d as [|[k1 v1] d IH]; simpl.
  - intros [H|[]]; auto.
  - destruct (String.eqb_spec k1 k) as [->|Hk]; simpl.
    + intros [H|H]; auto.
    + intros [H|H]; auto. destruct (IH H); auto.
Qed.

(** Assignment keeps the keys of an ordered dictionary distinct. *)
Lemma od_set_NoDup {V} (k : String.string) (v : V) (d : odict V) :
  NoDup (map fst d) -> NoDup (map fst (od_set k v d)).
Proof.
  induction d as [|[k1 v1] d IH]; simpl; intros H.
  - constructor; [simpl; tauto | constructor].
  - inversion H as [|x l Hx Hl]; subst.
    destruct (String.eqb_spec k1 k) as [->|Hk]; simpl.
    + constructor; assumption.
    + constructor; [|auto].
      intros Hin. destruct (od_set_In _ _ _ _ Hin) as [E|Hin']; auto.
Qed.

(** ** What [transfer_backbone] loads *)

(** One round of the loop. *)
Definition transfer_step {V} (d : odict V) (kv : String.string * V) : odict V :=
  if str_contains "backbone"%string (fst kv)
  then od_set (str_replace "backbone."%string String.EmptyString (fst kv)) (snd kv) d
  else d.

Lemma new_state_dict_fold {V} (checkpoint : odict V) :
  new_state_dict checkpoint = fold_left transfer_step checkpoint [].
Proof. reflexivity. Qed.

Lemma fold_transfer_filter {V} (checkpoint d : odict V) :
  fold_left transfer_step checkpoint d
  = fold_left transfer_step
      (filter (fun kv => str_contains "backbone"%string (fst kv)) checkpoint) d.
Proof.
  revert d; induction checkpoint as [|kv cp IH]; intros d; [reflexivity|].
  cbn [filter fold_left].
  destruct (str_contains "backbone"%string (fst kv)) eqn:E.
  - cbn [fold_left]. apply IH.
  - unfold transfer_step at 2. rewrite E. apply IH.
Qed.

Lemma fold_transfer_get {V} (name : String.string) (checkpoint d : odict V) :
  od_get name (fold_left transfer_step checkpoint d)
  = match od_get name
            (rev (map (fun kv => (str_replace "backbone."%string String.EmptyString
                                    (fst kv), snd kv))
                      (filter (fun kv => str_contains "backbone"%string (fst kv))
                              checkpoint)))
    with
    | Some v => Some v
    | None => od_get name d
    end.
Proof.
  revert d; induction checkpoint as [|kv cp IH]; intros d; [reflexivity|].
  cbn [filter fold_left]. rewrite IH. unfold transfer_step.
  destruct (str_contains "backbone"%string (fst kv)) eqn:E; [|reflexivity].
  cbn [map rev]. rewrite od_get_app.
  destruct (od_get name (rev _)) as [v|]; [reflexivity|].
  rewrite od_get_set. simpl. 
  destruct (String.eqb _ name); reflexivity.
Qed.

Lemma fold_transfer_NoDup {V} (checkpoint d : odict V) :
  NoDup (map fst d) -> NoDup (map fst (fold_left transfer_step checkpoint d)).
Proof.
  revert d; induction checkpoint as [|kv cp IH]; intros d H; [exact H|].
  cbn [fold_left]. apply IH. unfold transfer_step.
  destruct (str_contains "backbone"%string (fst kv)); [|exact H].
  apply od_set_NoDup. exact H.
Qed.

(** X11. The checkpoint entries whose key does not contain 'backbone'
    have no effect on [transfer_backbone]: the call behaves as on the
    checkpoint without them.  A checkpoint none of whose keys contains
    'backbone' is loaded as the empty checkpoint is: [load_state_dict]
    is still called, with an empty state dict. *)
Theorem transfer_backbone_ignores_other_keys
    (S : Scalar) (Img Feat V : Type)
    (load_state_dict : (list Img -> Feat) -> odict V -> Result (list Img -> Feat))
    (model : Model Img Feat) (checkpoint : odict V) :
  transfer_backbone load_state_dict model checkpoint
  = transfer_backbone load_state_dict model
      (filter (fun kv => str_contains "backbone"%string (fst kv)) checkpoint) /\
  ((forall k v, In (k, v) checkpoint -> str_contains "backbone"%string k = false) ->
   new_state_dict checkpoint = [] /\
   transfer_backbone load_state_dict model checkpoint
   = transfer_backbone load_state_dict model []).
Proof.
  assert (E : new_state_dict checkpoint
              = new_state_dict
                  (filter (fun kv => str_contains "backbone"%string (fst kv))
                          checkpoint)).
  { rewrite !new_state_dict_fold. apply fold_transfer_filter. }
  split.
  - unfold transfer_backbone. rewrite <- E. reflexivity.
  - intros H.
    assert (F : filter (fun kv : String.string * V =>
                          str_contains "backbone"%string (fst kv)) checkpoint = []).
    { clear E. induction checkpoint as [|[k v] cp IH]; [reflexivity|].
      cbn [filter fst]. rewrite (H k v) by (left; reflexivity).
      apply IH. intros k' v' Hin. apply (H k' v'). right. exact Hin. }
    rewrite F in E. split; [exact E|].
    unfold transfer_backbone. rewrite E. reflexivity.
Qed.

(** X12. In the state dict that [transfer_backbone] hands to
    [load_state_dict], the keys are pairwise distinct, and the value
    under a name is the value of the last checkpoint entry whose key
    contains 'backbone' and becomes that name when every 'backbone.' is
    removed from it; a name that no such entry gives is absent. *)
Theorem new_state_dict_last_write_wins
    (V : Type) (checkpoint : odict V) (name : String.string) :
  NoDup (map fst (new_state_dict checkpoint)) /\
  od_get name (new_state_dict checkpoint)
  = od_get name
      (rev (map (fun kv => (str_replace "backbone."%string String.EmptyString
                              (fst kv), snd kv))
                (filter (fun kv => str_contains "backbone"%string (fst kv))
                        checkpoint))).
Proof.
  rewrite new_state_dict_fold. split.
  - apply fold_transfer_NoDup. constructor.
  - rewrite fold_transfer_get.
    destruct (od_get name (rev _)); reflexivity.
Qed.

(** X13. A checkpoint key 'backbone.' followed by a name that holds no
    'backbone.' is loaded under that name.  A key that contains
    'backbone' but not 'backbone.' (the test looks for the first, the
    renaming for the second) is loaded under the key itself. *)
Theorem new_state_dict_renames_keys (V : Type) (v : V) :
  (forall name,
     str_contains "backbone."%string name = false ->
     new_state_dict [(String.append "backbone."%string name, v)] = [(name, v)]) /\
  (forall k,
     str_contains "backbone"%string k = true ->
     str_contains "backbone."%string k = false ->
     new_state_dict [(k, v)] = [(k, v)]).
Proof.
  split.
  - intros name H. unfold new_state_dict. cbn [fold_left fst snd].
    assert (C : str_contains "backbone"%string
                  (String.append "backbone."%string name) = true).
    { cbn [str_contains String.append].
      replace (String.prefix "backbone"%string _) with true; [reflexivity|].
      symmetry. destruct name; reflexivity. }
    rewrite C. rewrite str_replace_at_start.
    rewrite (str_replace_absent _ _ _ H). reflexivity.
  - intros k Hc Hn. unfold new_state_dict. cbn [fold_left fst snd].
    rewrite Hc. rewrite (str_replace_absent _ _ _ Hn). reflexivity.
Qed.

Lemma new_state_dict_renames_keys_witness :
  new_state_dict [("backbone.conv1.weight"%string, 1%Z)]
  = [("conv1.weight"%string, 1%Z)] /\
  new_state_dict [("backbone_fc.bias"%string, 2%Z)]
  = [("backbone_fc.bias"%string, 2%Z)].
Proof.
  split.
  - apply (proj1 (new_state_dict_renames_keys 1%Z) "conv1.weight"%string).
    reflexivity.
  - apply (proj2 (new_state_dict_renames_keys 2%Z) "backbone_fc.bias"%string);
      reflexivity.
Defined.

(** * Initialising the weights of a module ([init_weights]) *)

(** The exceptions of this part of the file. *)
Inductive py_exn : Type :=
| AttributeError      (* an attribute of None is used *)
| UnboundLocalError   (* a local variable is read before it is assigned *)
| Propagated (e : exn).

(** [type(m)]: the four classes the function compares with, and any
    other class (a subclass of one of the four is another class). *)
Inductive module_type : Type :=
| ConvTranspose2d | Conv2d | BatchNorm2d | Linear | OtherModule.

(** A module: its class and its two parameters, a flattened tensor
    each, or None (a layer built without bias, a normalisation layer
    built without affine parameters). *)
Record nn_module : Type := {
  mtype : module_type;
  weight : option (list float32);
  bias : option (list float32)
}.

Definition std_0_001 : float64 := SFdiv 53 1024 (f64_of_Z 1) (f64_of_Z 1000).
Definition std_0_01 : float64 := SFdiv 53 1024 (f64_of_Z 1) (f64_of_Z 100).

Section InitWeights.

(** The random number generator of torch: its state, and the draw of
    one normal sample of mean 0 and a given standard deviation. *)
Variable G : Type.
Variable normal : float64 -> G -> float32 * G.

(** The state the function works on: the module, which it changes in
    place, and the generator.  A computation returns a value or raises,
    and in both cases leaves a state. *)
Definition init_state : Type := (nn_module * G)%type.
Definition Init (A : Type) : Type := init_state -> (py_exn + A) * init_state.

Definition init_bind {A B} (c : Init A) (k : A -> Init B) : Init B :=
  fun st => match c st with
            | (inr a, st') => k a st'
            | (inl e, st') => (inl e, st')
            end.

(** [tensor.normal_(0, std)] on the entries of a tensor, in order. *)
Fixpoint normal_fill (std : float64) (t : list float32) (g : G)
  : list float32 * G :=
  match t with
  | [] => ([], g)
  | _ :: t' =>
      let '(x, g1) := normal std g in
      let '(xs, g2) := normal_fill std t' g1 in
      (x :: xs, g2)
  end.

(** [nn.init.normal_(m.weight, std=std)] *)
Definition init_normal_weight (std : float64) : Init unit :=
  fun st =>
    let '(m, g) := st in
    match weight m with
    | None => (inl AttributeError, st)
    | Some t =>
        let '(t', g') := normal_fill std t g in
        (inr tt, ({| mtype := mtype m; weight := Some t'; bias := bias m |}, g'))
    end.

(** [nn.init.constant_(m.weight, val)] *)
Definition init_constant_weight (val : float32) : Init unit :=
  fun st =>
    let '(m, g) := st in
    match weight m with
    | None => (inl AttributeError, st)
    | Some t =>
        (inr tt, ({| mtype := mtype m; weight := Some (map (fun _ => val) t);
                     bias := bias m |}, g))
    end.

(** [nn.init.constant_(m.bias, val)] *)
Definition init_constant_bias (val : float32) : Init unit :=
  fun st =>
    let '(m, g) := st in
    match bias m with
    | None => (inl AttributeError, st)
    | Some t =>
        (inr tt, ({| mtype := mtype m; weight := weight m;
                     bias := Some (map (fun _ => val) t) |}, g))
    end.

(** The body of the [try]. *)
Definition init_weights_body : Init unit :=
  fun st =>
    match mtype (fst st) with
    | ConvTranspose2d => init_normal_weight std_0_001 st
    | Conv2d =>
        init_bind (init_normal_weight std_0_001)
                  (fun _ => init_constant_bias (f32_of_Z 0)) st
    | BatchNorm2d =>
        init_bind (init_constant_weight (f32_of_Z 1))
                  (fun _ => init_constant_bias (f32_of_Z 0)) st
    | Linear =>
        init_bind (init_normal_weight std_0_01)
                  (fun _ => init_constant_bias (f32_of_Z 0)) st
    | OtherModule => (inr tt, st)
    end.

(** [init_weights]: an AttributeError of the body is dropped, with the
    state as the body left it. *)
Definition init_weights : Init unit :=
  fun st =>
    match init_weights_body st with
    | (inl AttributeError, st') => (inr tt, st')
    | r => r
    end.

End InitWeights.

(** ** What [init_weights] does to a module *)

Section InitWeightsFacts.
Variable G : Type.
Variable normal : float64 -> G -> float32 * G.

Lemma normal_fill_length (std : float64) (t : list float32) (g : G) :
  length (fst (normal_fill normal std t g)) = length t.
Proof.
  revert g; induction t as [|x t IH]; intros g; simpl; [reflexivity|].
  destruct (normal std g) as [y g1].
  specialize (IH g1). destruct (normal_fill normal std t g1) as [ys g2].
  simpl in *. f_equal. exact IH.
Qed.

Lemma map_const_repeat {A B} (v : B) (t : list A) :
  map (fun _ => v) t = repeat v (length t).
Proof. induction t as [|x t IH]; simpl; [reflexivity|]. f_equal. exact IH. Qed.

End InitWeightsFacts.

(** X14. [init_weights] raises on no module: an AttributeError of one
    of the initialisers is dropped.  The module keeps its class, a
    parameter that is None stays None, and a parameter that is a tensor
    keeps its number of entries. *)
Theorem init_weights_returns_and_keeps_shape
    (G : Type) (normal : float64 -> G -> float32 * G) (m : nn_module) (g : G) :
  exists m' g',
    init_weights normal (m, g) = (inr tt, (m', g')) /\
    mtype m' = mtype m /\
    option_map (@length float32) (weight m')
    = option_map (@length float32) (weight m) /\
    option_map (@length float32) (bias m')
    = option_map (@length float32) (bias m).
Proof.
  destruct m as [ty w b].
  assert (L : forall std t, length (fst (normal_fill normal std t g)) = length t)
    by (intros; apply normal_fill_length).
  unfold init_weights, init_weights_body, init_bind, init_normal_weight,
    init_constant_weight, init_constant_bias.
  generalize std_0_001 std_0_01 (f32_of_Z 0) (f32_of_Z 1). intros s1 s2 z o.
  destruct ty; destruct w as [w|]; destruct b as [b|]; cbn;
    try (pose proof (L s1 w) as L1; pose proof (L s2 w) as L2);
    repeat match goal with
           | |- context [normal_fill normal ?s ?t ?g] =>
               destruct (normal_fill normal s t g) as [? ?]
           end;
    cbn in *; do 2 eexists; (split; [reflexivity|]); cbn;
    rewrite ?length_map; repeat split; congruence.
Qed.

(** X15. On a Conv2d, BatchNorm2d or Linear module whose weight and
    bias are tensors, [init_weights] leaves a bias of zeros; on a
    BatchNorm2d it also leaves a weight of ones and does not touch the
    random number generator. *)
Theorem init_weights_constants
    (G : Type) (normal : float64 -> G -> float32 * G)
    (m : nn_module) (g : G) (w b : list float32) :
  weight m = Some w -> bias m = Some b ->
  mtype m = Conv2d \/ mtype m = BatchNorm2d \/ mtype m = Linear ->
  bias (fst (snd (init_weights normal (m, g))))
  = Some (repeat (S754_zero false) (length b)) /\
  (mtype m = BatchNorm2d ->
   weight (fst (snd (init_weights normal (m, g))))
   = Some (repeat (f32_of_Z 1) (length w)) /\
   snd (snd (init_weights normal (m, g))) = g).
Proof.
  destruct m as [ty w0 b0]. cbn [weight bias mtype].
  intros -> -> Hty.
  change (S754_zero false) with (f32_of_Z 0).
  unfold init_weights, init_weights_body, init_bind, init_normal_weight,
    init_constant_weight, init_constant_bias.
  generalize std_0_001 std_0_01 (f32_of_Z 0) (f32_of_Z 1). intros s1 s2 z o.
  destruct ty; cbn;
    try (destruct Hty as [Hty|[Hty|Hty]]; discriminate);
    repeat match goal with
           | |- context [normal_fill normal ?s ?t ?g] =>
               destruct (normal_fill normal s t g) as [? ?]
           end;
    cbn; rewrite ?map_const_repeat;
    (split; [reflexivity|]); intros E; try discriminate.
  split; reflexivity.
Qed.

Lemma init_weights_constants_witness :
  bias (fst (snd (init_weights (fun _ (g : nat) => (f32_of_Z 7, S g))
                    ({| mtype := BatchNorm2d;
                        weight := Some [f32_of_Z 3; f32_of_Z 4];
                        bias := Some [f32_of_Z 5; f32_of_Z 6] |}, 0))))
  = Some [S754_zero false; S754_zero false] /\
  (BatchNorm2d = BatchNorm2d ->
   weight (fst (snd (init_weights (fun _ (g : nat) => (f32_of_Z 7, S g))
                    ({| mtype := BatchNorm2d;
                        weight := Some [f32_of_Z 3; f32_of_Z 4];
                        bias := Some [f32_of_Z 5; f32_of_Z 6] |}, 0))))
   = Some [f32_of_Z 1; f32_of_Z 1] /\
   snd (snd (init_weights (fun _ (g : nat) => (f32_of_Z 7, S g))
                    ({| mtype := BatchNorm2d;
                        weight := Some [f32_of_Z 3; f32_of_Z 4];
                        bias := Some [f32_of_Z 5; f32_of_Z 6] |}, 0))) = 0).
Proof.
  exact (@init_weights_constants nat (fun _ (g : nat) => (f32_of_Z 7, S g))
           {| mtype := BatchNorm2d;
              weight := Some [f32_of_Z 3; f32_of_Z 4];
              bias := Some [f32_of_Z 5; f32_of_Z 6] |} 0
           [f32_of_Z 3; f32_of_Z 4] [f32_of_Z 5; f32_of_Z 6] eq_refl eq_refl
           (or_intror (or_introl eq_refl))).
Defined.

(** X16. What [init_weights] leaves alone.  A module of another class
    is not changed and no random number is drawn.  A BatchNorm2d whose
    weight is None is not changed at all: its bias is not reached.  The
    bias of a ConvTranspose2d is never changed.  On a Conv2d or Linear
    module without bias the weight is still drawn anew, from the
    generator, before the missing bias stops the function. *)
Theorem init_weights_untouched
    (G : Type) (normal : float64 -> G -> float32 * G) (m : nn_module) (g : G) :
  (mtype m = OtherModule -> init_weights normal (m, g) = (inr tt, (m, g))) /\
  (mtype m = BatchNorm2d -> weight m = None ->
   init_weights normal (m, g) = (inr tt, (m, g))) /\
  (mtype m = ConvTranspose2d ->
   bias (fst (snd (init_weights normal (m, g)))) = bias m) /\
  (forall w std,
     (mtype m = Conv2d /\ std = std_0_001) \/ (mtype m = Linear /\ std = std_0_01) ->
     weight m = Some w -> bias m = None ->
     init_weights normal (m, g)
     = (inr tt, ({| mtype := mtype m;
                    weight := Some (fst (normal_fill normal std w g));
                    bias := None |},
                 snd (normal_fill normal std w g)))).
Proof.
  destruct m as [ty w0 b0]. cbn [weight bias mtype].
  unfold init_weights, init_weights_body, init_bind, init_normal_weight,
    init_constant_weight, init_constant_bias.
  generalize std_0_001 std_0_01 (f32_of_Z 0) (f32_of_Z 1). intros s1 s2 z o.
  repeat split.
  - intros ->. reflexivity.
  - intros -> ->. reflexivity.
  - intros ->. cbn. destruct w0 as [w|]; [|reflexivity].
    destruct (normal_fill normal s1 w g). reflexivity.
  - intros w std [[-> ->]|[-> ->]] -> ->; cbn;
      destruct (normal_fill normal _ w g); reflexivity.
Qed.

(** * Applying [init_weights] to a module and its submodules *)

(** A module with its child modules, as [nn.Module.children] lists
    them. *)
Unset Elimination Schemes.
Inductive mtree : Type :=
| MNode (m : nn_module) (children : list mtree).
Set Elimination Schemes.

Section ApplyInit.
Variable G : Type.
Variable normal : float64 -> G -> float32 * G.

(** [module.apply(init_weights)] of line 109: the function is called
    on the children, in order and each with its own submodules first,
    and then on the module itself.  [init_weights] raises on no module,
    so only the state is handed on. *)
Fixpoint apply_init_weights (t : mtree) (g : G) : mtree * G :=
  match t with
  | MNode m children =>
      let fix apply_children (cs : list mtree) (g : G) : list mtree * G :=
        match cs with
        | [] => ([], g)
        | c :: cs' =>
            let '(c', g1) := apply_init_weights c g in
            let '(cs'', g2) := apply_children cs' g1 in
            (c' :: cs'', g2)
        end in
      let '(children', g1) := apply_children children g in
      let '(m', g2) := snd (init_weights normal (m, g1)) in
      (MNode m' children', g2)
  end.

(** The children of a module, one after the other. *)
Fixpoint apply_children (cs : list mtree) (g : G) : list mtree * G :=
  match cs with
  | [] => ([], g)
  | c :: cs' =>
      let '(c', g1) := apply_init_weights c g in
      let '(cs'', g2) := apply_children cs' g1 in
      (c' :: cs'', g2)
  end.

Lemma apply_init_weights_node (m : nn_module) (children : list mtree) (g : G) :
  apply_init_weights (MNode m children) g
  = let '(children', g1) := apply_children children g in
    let '(m', g2) := snd (init_weights normal (m, g1)) in
    (MNode m' children', g2).
Proof.
  cbn [apply_init_weights].
  assert (E : forall cs g0,
    (fix apply_children (cs : list mtree) (g : G) : list mtree * G :=
       match cs with
       | [] => ([], g)
       | c :: cs' =>
           let '(c', g1) := apply_init_weights c g in
           let '(cs'', g2) := apply_children cs' g1 in
           (c' :: cs'', g2)
       end) cs g0 = apply_children cs g0).
  { induction cs as [|c cs IH]; intros g0; [reflexivity|].
    cbn [apply_children]. destruct (apply_init_weights c g0) as [c' g1].
    rewrite IH. reflexivity. }
  rewrite E. reflexivity.
Qed.

End ApplyInit.

(** The modules of a tree, parents before children. *)
Fixpoint modules (t : mtree) : list nn_module :=
  match t with
  | MNode m children => m :: flat_map modules children
  end.

(** The class and the parameter sizes of a module. *)
Definition signature (m : nn_module) : module_type * option nat * option nat :=
  (mtype m, option_map (@length float32) (weight m),
   option_map (@length float32) (bias m)).

(** Induction on module trees, with the hypothesis on all children. *)
Lemma mtree_induction (P : mtree -> Prop) :
  (forall m children, Forall P children -> P (MNode m children)) ->
  forall t, P t.
Proof.
  intros H. fix IH 1. intros [m children]. apply H.
  induction children as [|c cs IHcs]; constructor; [apply IH | exact IHcs].
Qed.

(** The constant parameters [init_weights] leaves: on a BatchNorm2d
    with both parameters a weight of ones and a bias of zeros, on a
    Conv2d or Linear module with both parameters a bias of zeros. *)
Definition constants_set (m : nn_module) : Prop :=
  match mtype m, weight m, bias m with
  | BatchNorm2d, Some w, Some b =>
      w = repeat (f32_of_Z 1) (length w) /\ b = repeat (S754_zero false) (length b)
  | Conv2d, Some _, Some b => b = repeat (S754_zero false) (length b)
  | Linear, Some _, Some b => b = repeat (S754_zero false) (length b)
  | _, _, _ => True
  end.

Section ApplyInitFacts.
Variable G : Type.
Variable normal : float64 -> G -> float32 * G.

Lemma init_weights_signature (m : nn_module) (g : G) :
  signature (fst (snd (init_weights normal (m, g)))) = signature m.
Proof.
  destruct m as [ty w b].
  assert (L : forall std t, length (fst (normal_fill normal std t g)) = length t)
    by (intros; apply normal_fill_length).
  unfold init_weights, init_weights_body, init_bind, init_normal_weight,
    init_constant_weight, init_constant_bias, signature.
  generalize std_0_001 std_0_01 (f32_of_Z 0) (f32_of_Z 1). intros s1 s2 z o.
  destruct ty; destruct w as [w|]; destruct b as [b|]; cbn;
    try (pose proof (L s1 w) as L1; pose proof (L s2 w) as L2);
    repeat match goal with
           | |- context [normal_fill normal ?s ?t ?g] =>
               destruct (normal_fill normal s t g) as [? ?]
           end;
    cbn in *; rewrite ?length_map; congruence.
Qed.

Lemma repeat_repeat_length {A} (v : A) (n : nat) :
  repeat v n = repeat v (length (repeat v n)).
Proof. rewrite repeat_length. reflexivity. Qed.

Lemma init_weights_constants_set (m : nn_module) (g : G) :
  constants_set (fst (snd (init_weights normal (m, g)))).
Proof.
  destruct m as [ty w b].
  unfold init_weights, init_weights_body, init_bind, init_normal_weight,
    init_constant_weight, init_constant_bias, constants_set.
  change (S754_zero false) with (f32_of_Z 0).
  generalize std_0_001 std_0_01 (f32_of_Z 0) (f32_of_Z 1). intros s1 s2 z o.
  destruct ty; destruct w as [w|]; destruct b as [b|]; cbn;
    repeat match goal with
           | |- context [normal_fill normal ?s ?t ?g] =>
               destruct (normal_fill normal s t g) as [? ?]
           end;
    cbn; rewrite ?map_const_repeat; try exact I;
    try split; apply repeat_repeat_length.
Qed.

Lemma apply_children_modules (P : nn_module -> nn_module -> Prop) (cs : list mtree) :
  Forall (fun c => forall g,
            Forall2 P (modules c) (modules (fst (apply_init_weights normal c g)))) cs ->
  forall g,
    Forall2 P (flat_map modules cs)
              (flat_map modules (fst (apply_children normal cs g))).
Proof.
  induction 1 as [|c cs Hc _ IH]; intros g; [constructor|].
  cbn [apply_children]. specialize (Hc g).
  destruct (apply_init_weights normal c g) as [c' g1].
  specialize (IH g1). destruct (apply_children normal cs g1) as [cs' g2].
  cbn [fst flat_map] in *. apply Forall2_app; assumption.
Qed.

(** Module by module: what [apply] leaves is what [init_weights]
    leaves of the module, for some state of the generator. *)
Lemma apply_init_weights_modules (t : mtree) :
  forall g,
    Forall2 (fun m m' => exists g0, m' = fst (snd (init_weights normal (m, g0))))
            (modules t) (modules (fst (apply_init_weights normal t g))).
Proof.
  induction t as [m children IH] using mtree_induction. intros g.
  rewrite apply_init_weights_node.
  pose proof (@apply_children_modules _ children IH g) as Hc.
  destruct (apply_children normal children g) as [children' g1].
  destruct (snd (init_weights normal (m, g1))) as [m' g2] eqn:E.
  cbn [fst modules] in *. constructor; [|exact Hc].
  exists g1. rewrite E. reflexivity.
Qed.

End ApplyInitFacts.

Lemma Forall2_constants_set (G : Type) (normal : float64 -> G -> float32 * G)
    (l l' : list nn_module) :
  Forall2 (fun m m' => exists g0, m' = fst (snd (init_weights normal (m, g0)))) l l' ->
  Forall constants_set l'.
Proof.
  induction 1 as [|m m' l l' [g0 ->] _ IH]; constructor; [|exact IH].
  apply init_weights_constants_set.
Qed.

(** X17. [apply] of [init_weights] to a module keeps the tree of
    modules as it is, module by module: the same classes in the same
    order, a parameter that is None stays None and a tensor keeps its
    number of entries. *)
Theorem apply_init_weights_keeps_modules
    (G : Type) (normal : float64 -> G -> float32 * G) (t : mtree) (g : G) :
  map signature (modules (fst (apply_init_weights normal t g)))
  = map signature (modules t).
Proof.
  pose proof (apply_init_weights_modules normal t g) as H.
  induction H as [|m m' l l' [g0 ->] _ IH]; [reflexivity|].
  cbn [map]. rewrite init_weights_signature, IH. reflexivity.
Qed.

(** X18. After [apply] of [init_weights], in the module and in every
    submodule at any depth: a BatchNorm2d with both parameters has a
    weight of ones and a bias of zeros, and a Conv2d or Linear module
    with both parameters has a bias of zeros. *)
Theorem apply_init_weights_sets_constants
    (G : Type) (normal : float64 -> G -> float32 * G) (t : mtree) (g : G) :
  Forall constants_set (modules (fst (apply_init_weights normal t g))).
Proof.
  exact (@Forall2_constants_set _ _ _ _ (apply_init_weights_modules normal t g)).
Qed.

(** * Building the model ([get_model]) *)

(** The fields of [cfg.MODEL] that [get_model] reads and writes; the
    image shape is in pixels. *)
Record ModelConfig : Type := {
  backbone_name : String.string;      (* cfg.MODEL.backbone *)
  use_upsampling_layer : bool;        (* cfg.MODEL.use_upsampling_layer *)
  model_input_img_shape : Z * Z;      (* cfg.MODEL.input_img_shape *)
  img_feat_shape : Z * Z;             (* cfg.MODEL.img_feat_shape *)
  predictor_hidden_dim : Z            (* cfg.MODEL.predictor_hidden_dim *)
}.

(** [cfg.MODEL.img_feat_shape = (input_img_shape[0]//d, input_img_shape[1]//d)] *)
Definition set_img_feat_shape (mcfg : ModelConfig) (d : Z) : ModelConfig :=
  {| backbone_name := backbone_name mcfg;
     use_upsampling_layer := use_upsampling_layer mcfg;
     model_input_img_shape := model_input_img_shape mcfg;
     img_feat_shape := (fst (model_input_img_shape mcfg) / d,
                        snd (model_input_img_shape mcfg) / d)%Z;
     predictor_hidden_dim := predictor_hidden_dim mcfg |}.

Definition resnet_pretrained : String.string :=
  "data/base_data/backbone_models/cls_resnet_50_imagenet.pth"%string.
Definition hrnet_pretrained : String.string :=
  "data/base_data/backbone_models/cls_hrnet_w32_imagenet.pth"%string.

Section GetModel.
Context {S : Scalar}.
Variable Img Feat : Type.
Variable cfg : Config pyfloat.
Variable smpl_layer_neutral : tensor2 -> tensor2 -> tensor2 -> Result tensor3.

(** The generator of random numbers, which the constructors and the
    initialisers draw from. *)
Variable G : Type.
Variable normal : float64 -> G -> float32 * G.

(** The classes of [models]: a backbone module is kept abstract, the
    head is a tree of modules; their constructors, the loading of the
    pretrained backbone weights, and their forward passes. *)
Variable Bb : Type.
Variable PoseResNet : Z -> bool -> G -> Bb * G.
Variable PoseHighResolutionNet : bool -> G -> Bb * G.
Variable Predictor : Z -> Z -> G -> mtree * G.
Variable backbone_init_weights : Bb -> String.string -> G -> (py_exn + Bb) * G.
Variable backbone_forward : Bb -> list Img -> Feat.
Variable head_forward : mtree -> Feat -> tensor2 * tensor2 * list vec.

(** Lines 89-103: the backbone, the path of its pretrained weights, its
    output width and the configuration with the feature shape set; None
    when neither branch is taken and the three variables stay
    unassigned. *)
Definition choose_backbone (mcfg : ModelConfig) (g : G)
  : option (Bb * String.string * Z * ModelConfig * G) :=
  if String.eqb (backbone_name mcfg) "resnet50"%string then
    let '(backbone, g1) := PoseResNet 50 (use_upsampling_layer mcfg) g in
    let pretrained := resnet_pretrained in
    if use_upsampling_layer mcfg
    then Some (backbone, pretrained, 256%Z, set_img_feat_shape mcfg 4, g1)
    else Some (backbone, pretrained, 2048%Z, set_img_feat_shape mcfg 32, g1)
  else if String.eqb (backbone_name mcfg) "hrnetw32"%string then
    let '(backbone, g1) := PoseHighResolutionNet (use_upsampling_layer mcfg) g in
    let mcfg1 := set_img_feat_shape mcfg 4 in
    let pretrained := hrnet_pretrained in
    Some (backbone, pretrained,
          if use_upsampling_layer mcfg then 480%Z else 32%Z, mcfg1, g1)
  else None.

(** [get_model]: the model or the exception, and the configuration and
    the generator as the call leaves them. *)
Definition get_model (is_train : bool) (mcfg : ModelConfig) (g : G)
  : (py_exn + Model Img Feat) * (ModelConfig * G) :=
  match choose_backbone mcfg g with
  | None => (inl UnboundLocalError, (mcfg, g))
  | Some (backbone, pretrained, backbone_out_dim, mcfg1, g1) =>
      let '(head, g2) :=
        Predictor backbone_out_dim (predictor_hidden_dim mcfg1) g1 in
      let initialised : (py_exn + Bb * mtree) * G :=
        if is_train then
          match backbone_init_weights backbone pretrained g2 with
          | (inr backbone', g3) =>
              let '(head', g4) := apply_init_weights normal head g3 in
              (inr (backbone', head'), g4)
          | (inl e, g3) => (inl e, g3)
          end
        else (inr (backbone, head), g2) in
      match initialised with
      | (inr (backbone, head), g') =>
          match Model_init cfg smpl_layer_neutral
                           (backbone_forward backbone) (head_forward head) with
          | Ok model => (inr model, (mcfg1, g'))
          | Raise e => (inl (Propagated e), (mcfg1, g'))
          end
      | (inl e, g') => (inl e, (mcfg1, g'))
      end
  end.

End GetModel.

(** ** What [get_model] accepts and returns *)

(** X19. For a backbone name other than 'resnet50' and 'hrnetw32',
    [get_model] raises UnboundLocalError, in training and in
    evaluation mode: nothing is constructed, no random number is drawn
    and the configuration is not changed. *)
Theorem get_model_unsupported_backbone
    (S : Scalar) (Img Feat : Type) (cfg : Config pyfloat)
    (smpl_layer_neutral : tensor2 -> tensor2 -> tensor2 -> Result tensor3)
    (G : Type) (normal : float64 -> G -> float32 * G) (Bb : Type)
    (PoseResNet : Z -> bool -> G -> Bb * G)
    (PoseHighResolutionNet : bool -> G -> Bb * G)
    (Predictor : Z -> Z -> G -> mtree * G)
    (backbone_init_weights : Bb -> String.string -> G -> (py_exn + Bb) * G)
    (backbone_forward : Bb -> list Img -> Feat)
    (head_forward : mtree -> Feat -> tensor2 * tensor2 * list vec)
    (is_train : bool) (mcfg : ModelConfig) (g : G) :
  backbone_name mcfg <> "resnet50"%string ->
  backbone_name mcfg <> "hrnetw32"%string ->
  get_model cfg smpl_layer_neutral normal PoseResNet PoseHighResolutionNet
            Predictor backbone_init_weights backbone_forward head_forward
            is_train mcfg g
  = (inl UnboundLocalError, (mcfg, g)).
Proof.
  intros H1 H2. unfold get_model, choose_backbone.
  apply String.eqb_neq in H1. apply String.eqb_neq in H2.
  rewrite H1, H2. reflexivity.
Qed.

(** X20. When [get_model] returns a model: the backbone name is one of
    the two supported ones; the configuration is changed in its feature
    shape only, which is the input shape divided, rounding down, by 32
    for 'resnet50' without upsampling and by 4 otherwise; the head of
    the model is the forward pass of a module tree, and in training
    mode the constants of [init_weights] are set in every module of
    that tree. *)
Theorem get_model_postcondition
    (S : Scalar) (Img Feat : Type) (cfg : Config pyfloat)
    (smpl_layer_neutral : tensor2 -> tensor2 -> tensor2 -> Result tensor3)
    (G : Type) (normal : float64 -> G -> float32 * G) (Bb : Type)
    (PoseResNet : Z -> bool -> G -> Bb * G)
    (PoseHighResolutionNet : bool -> G -> Bb * G)
    (Predictor : Z -> Z -> G -> mtree * G)
    (backbone_init_weights : Bb -> String.string -> G -> (py_exn + Bb) * G)
    (backbone_forward : Bb -> list Img -> Feat)
    (head_forward : mtree -> Feat -> tensor2 * tensor2 * list vec)
    (is_train : bool) (mcfg mcfg' : ModelConfig) (g g' : G)
    (model : Model Img Feat) :
  get_model cfg smpl_layer_neutral normal PoseResNet PoseHighResolutionNet
            Predictor backbone_init_weights backbone_forward head_forward
            is_train mcfg g
  = (inr model, (mcfg', g')) ->
  exists (d : Z) (head_tree : mtree),
    ((d = 32%Z /\ backbone_name mcfg = "resnet50"%string /\
      use_upsampling_layer mcfg = false) \/
     (d = 4%Z /\ (backbone_name mcfg = "hrnetw32"%string \/
                  (backbone_name mcfg = "resnet50"%string /\
                   use_upsampling_layer mcfg = true)))) /\
    mcfg' = set_img_feat_shape mcfg d /\
    (d * fst (img_feat_shape mcfg') <= fst (model_input_img_shape mcfg)
     < d * fst (img_feat_shape mcfg') + d)%Z /\
    (d * snd (img_feat_shape mcfg') <= snd (model_input_img_shape mcfg)
     < d * snd (img_feat_shape mcfg') + d)%Z /\
    head model = head_forward head_tree /\
    (is_train = true -> Forall constants_set (modules head_tree)).
Proof.
  unfold get_model, choose_backbone, Model_init. intros H.
  assert (D4 : forall x : Z, (4 * (x / 4) <= x < 4 * (x / 4) + 4)%Z)
    by (intros; Z.div_mod_to_equations; lia).
  assert (D32 : forall x : Z, (32 * (x / 32) <= x < 32 * (x / 32) + 32)%Z)
    by (intros; Z.div_mod_to_equations; lia).
  destruct (String.eqb_spec (backbone_name mcfg) "resnet50"%string) as [E1|N1];
    [|destruct (String.eqb_spec (backbone_name mcfg) "hrnetw32"%string) as [E2|N2];
      [|discriminate]].
  - destruct (PoseResNet 50%Z (use_upsampling_layer mcfg) g) as [bb g1].
    destruct (use_upsampling_layer mcfg) eqn:U;
      destruct (Predictor _ _ g1) as [hd g2];
      (destruct is_train;
       [ destruct (backbone_init_weights bb resnet_pretrained g2) as [[e|bb'] g3];
         [discriminate|];
         pose proof (@Forall2_constants_set _ _ _ _
                       (apply_init_weights_modules normal hd g3)) as C;
         destruct (apply_init_weights normal hd g3) as [hd' g4]
       | ]);
      injection H as <- <- <-;
      [ exists 4%Z, hd' | exists 4%Z, hd | exists 32%Z, hd' | exists 32%Z, hd ];
      cbn [head set_img_feat_shape img_feat_shape model_input_img_shape fst snd];
      repeat split; auto; try discriminate; try apply D4; try apply D32.
  - destruct (PoseHighResolutionNet (use_upsampling_layer mcfg) g) as [bb g1].
    destruct (Predictor _ _ g1) as [hd g2].
    destruct is_train.
    + destruct (backbone_init_weights bb hrnet_pretrained g2) as [[e|bb'] g3];
        [discriminate|].
      pose proof (@Forall2_constants_set _ _ _ _
                    (apply_init_weights_modules normal hd g3)) as C.
      destruct (apply_init_weights normal hd g3) as [hd' g4].
      injection H as <- <- <-. exists 4%Z, hd'.
      cbn [head set_img_feat_shape img_feat_shape model_input_img_shape fst snd].
      repeat split; auto; try apply D4.
    + injection H as <- <- <-. exists 4%Z, hd.
      cbn [head set_img_feat_shape img_feat_shape model_input_img_shape fst snd].
      repeat split; auto; try discriminate; try apply D4.
Qed.

(** Stand-ins for the classes of [models]: a generator that counts the
    draws, backbones without parameters and a head of one Linear layer
    under a container. *)
Definition demo_normal (std : float64) (g : nat) : float32 * nat :=
  (f32_of_Z 7, S g).

Definition demo_predictor (in_dim hidden : Z) (g : nat) : mtree * nat :=
  (MNode {| mtype := OtherModule; weight := None; bias := None |}
     [MNode {| mtype := Linear;
               weight := Some [f32_of_Z 3; f32_of_Z 4];
               bias := Some [f32_of_Z 5] |} []], g).

Definition demo_mcfg (name : String.string) : ModelConfig :=
  {| backbone_name := name;
     use_upsampling_layer := false;
     model_input_img_shape := (256, 250)%Z;
     img_feat_shape := (0, 0)%Z;
     predictor_hidden_dim := 64%Z |}.

Definition demo_get_model (is_train : bool) (mcfg : ModelConfig) (g : nat)
  : (py_exn + @Model F32 demo_img (list demo_img)) * (ModelConfig * nat) :=
  @get_model F32 demo_img (list demo_img) demo_cfg demo_smpl_layer nat demo_normal
    unit (fun _ _ g => (tt, g)) (fun _ g => (tt, g)) demo_predictor
    (fun b _ g => (inr b, g)) (fun _ => demo_backbone) (fun _ => demo_head)
    is_train mcfg g.

Lemma get_model_unsupported_backbone_witness :
  demo_get_model true (demo_mcfg "vgg16"%string) 0
  = (inl UnboundLocalError, (demo_mcfg "vgg16"%string, 0)).
Proof.
  apply (@get_model_unsupported_backbone F32); discriminate.
Defined.

Lemma get_model_postcondition_witness :
  exists (model : @Model F32 demo_img (list demo_img)) mcfg' g',
    demo_get_model true (demo_mcfg "resnet50"%string) 0
    = (inr model, (mcfg', g')) /\
    img_feat_shape mcfg' = (8, 7)%Z /\
    exists (d : Z) (head_tree : mtree),
      ((d = 32%Z /\ "resnet50"%string = "resnet50"%string /\ false = false) \/
       (d = 4%Z /\ ("resnet50"%string = "hrnetw32"%string \/
                    ("resnet50"%string = "resnet50"%string /\ false = true)))) /\
      mcfg' = set_img_feat_shape (demo_mcfg "resnet50"%string) d /\
      (d * fst (img_feat_shape mcfg') <= 256 < d * fst (img_feat_shape mcfg') + d)%Z /\
      (d * snd (img_feat_shape mcfg') <= 250 < d * snd (img_feat_shape mcfg') + d)%Z /\
      head model = (fun _ : mtree => demo_head) head_tree /\
      (true = true -> Forall constants_set (modules head_tree)).
Proof.
  do 3 eexists.
  assert (H : demo_get_model true (demo_mcfg "resnet50"%string) 0
              = (inr _, (_, _))) by reflexivity.
  split; [exact H|]. split; [reflexivity|].
  exact (@get_model_postcondition F32 demo_img (list demo_img) demo_cfg
           demo_smpl_layer nat demo_normal unit _ _ _ _ _ _ _ _ _ _ _ _ H).
Defined.

(** * The projection at zero depth *)

(** The literal 1e-4 as a tensor element. *)
Definition eps32 : float32 := S754_finite false 13743895 (-37).

Lemma eps32_is_lit : f32_of_f64 f64_1e_4 = eps32.
Proof. vm_compute. reflexivity. Qed.

Lemma f32_add_zero_eps (d : float32) :
  is_zero d = true -> f32_add d eps32 = eps32.
Proof. destruct d as [[|]|[|]| |s m e]; try discriminate; reflexivity. Qed.

(** X21. In single precision, for joints and camera translations of
    one batch size: where the depth Z + t_z of a joint is a zero,
    the projection raises nothing and divides by the single-precision
    value of 1e-4, 13743895 * 2^-37:
    x = (X + t_x) / 1e-4 * focal_x + principal_x, and y likewise. *)
Theorem project_at_zero_depth
    (cfg : Config float64) (joint_cam : list (list (V3 float32)))
    (cam_trans : list (V3 float32)) (i j : nat) (p t : V3 float32) :
  length joint_cam = length cam_trans ->
  entry joint_cam i j = Some p -> nth_error cam_trans i = Some t ->
  is_zero (f32_add (c2 p) (c2 t)) = true ->
  exists joint_proj,
    @project F32 cfg joint_cam cam_trans = Ok joint_proj /\
    entry joint_proj i j
    = Some (f32_add (f32_mul (f32_div (f32_add (c0 p) (c0 t)) eps32)
                             (f32_of_f64 (fst (focal cfg))))
                    (f32_of_f64 (fst (princpt cfg))),
            f32_add (f32_mul (f32_div (f32_add (c1 p) (c1 t)) eps32)
                             (f32_of_f64 (snd (focal cfg))))
                    (f32_of_f64 (snd (princpt cfg)))).
Proof.
  intros Hl Hp Ht Hz.
  eexists. split; [apply (@project_same_batch F32 cfg _ _ Hl)|].
  rewrite (entry_zipw_map (fun p t => @proj_point F32 cfg p t) joint_cam cam_trans
             i j Hp Ht).
  unfold proj_point.
  change (@t_add F32) with f32_add. change (@t_mul F32) with f32_mul.
  change (@t_div F32) with f32_div. change (@as_elt F32) with f32_of_f64.
  change (@lit_1e_4 F32) with f64_1e_4.
  rewrite eps32_is_lit.
  pose proof (@f32_add_zero_eps _ Hz) as E.
  repeat f_equal; exact E.
Qed.

Lemma project_at_zero_depth_witness :
  exists joint_proj,
    @project F32 demo_cfg
      [[mk3 (f32_of_Z 1) (f32_of_Z 2) (f32_of_Z (-3))]]
      [mk3 (f32_of_Z 0) (f32_of_Z 0) (f32_of_Z 3)] = Ok joint_proj /\
    entry joint_proj 0 0
    = Some (f32_add (f32_mul (f32_div (f32_add (f32_of_Z 1) (f32_of_Z 0)) eps32)
                             (f32_of_f64 (f64_of_Z 1000)))
                    (f32_of_f64 (f64_of_Z 256)),
            f32_add (f32_mul (f32_div (f32_add (f32_of_Z 2) (f32_of_Z 0)) eps32)
                             (f32_of_f64 (f64_of_Z 1000)))
                    (f32_of_f64 (f64_of_Z 256))).
Proof.
  exact (@project_at_zero_depth demo_cfg
           [[mk3 (f32_of_Z 1) (f32_of_Z 2) (f32_of_Z (-3))]]
           [mk3 (f32_of_Z 0) (f32_of_Z 0) (f32_of_Z 3)] 0 0
           (mk3 (f32_of_Z 1) (f32_of_Z 2) (f32_of_Z (-3)))
           (mk3 (f32_of_Z 0) (f32_of_Z 0) (f32_of_Z 3))
           eq_refl eq_refl eq_refl eq_refl).
Defined.

(** * The depth of the camera translation: its bounds *)





(** * The projection at zero depth: no exception, not always finite *)

(** C5, as the code has it.  In single precision, for joints and
    camera translations of one batch size, the projection raises
    nothing, whatever the depths are.  At every joint whose depth
    Z + t_z is a zero, the denominator Z + t_z + 1e-4 is the
    single-precision value of 1e-4, which is finite and not zero, and
    the projected point is
    ((X + t_x) / 1e-4 * focal_x + principal_x,
     (Y + t_y) / 1e-4 * focal_y + principal_y). *)
Theorem project_zero_depth_divides_by_epsilon
    (cfg : Config float64) (joint_cam : list (list (V3 float32)))
    (cam_trans : list (V3 float32)) :
  length joint_cam = length cam_trans ->
  exists joint_proj,
    @project F32 cfg joint_cam cam_trans = Ok joint_proj /\
    forall i j p t,
      entry joint_cam i j = Some p -> nth_error cam_trans i = Some t ->
      is_zero (f32_add (c2 p) (c2 t)) = true ->
      f32_add (f32_add (c2 p) (c2 t)) (f32_of_f64 f64_1e_4) = eps32 /\
      is_finite eps32 = true /\ is_zero eps32 = false /\
      entry joint_proj i j
      = Some (f32_add (f32_mul (f32_div (f32_add (c0 p) (c0 t)) eps32)
                               (f32_of_f64 (fst (focal cfg))))
                      (f32_of_f64 (fst (princpt cfg))),
              f32_add (f32_mul (f32_div (f32_add (c1 p) (c1 t)) eps32)
                               (f32_of_f64 (snd (focal cfg))))
                      (f32_of_f64 (snd (princpt cfg)))).
Proof.
  intros Hl.
  eexists. split; [apply (@project_same_batch F32 cfg _ _ Hl)|].
  intros i j p t Hp Ht Hz.
  assert (E : f32_add (f32_add (c2 p) (c2 t)) (f32_of_f64 f64_1e_4) = eps32)
    by (rewrite eps32_is_lit; exact (@f32_add_zero_eps _ Hz)).
  split; [exact E|]. split; [reflexivity|]. split; [reflexivity|].
  rewrite (entry_zipw_map (fun p t => @proj_point F32 cfg p t) joint_cam cam_trans
             i j Hp Ht).
  unfold proj_point.
  change (@t_add F32) with f32_add. change (@t_mul F32) with f32_mul.
  change (@t_div F32) with f32_div. change (@as_elt F32) with f32_of_f64.
  change (@lit_1e_4 F32) with f64_1e_4.
  repeat f_equal; exact E.
Qed.

Lemma project_zero_depth_divides_by_epsilon_witness :
  exists joint_proj,
    @project F32 demo_cfg
      [[mk3 (f32_of_Z 1) (f32_of_Z 2) (f32_of_Z (-3))]]
      [mk3 (f32_of_Z 0) (f32_of_Z 0) (f32_of_Z 3)] = Ok joint_proj /\
    entry joint_proj 0 0
    = Some (S754_finite false 10000256 0, S754_finite false 10000128 1).
Proof.
  destruct (@project_zero_depth_divides_by_epsilon demo_cfg
              [[mk3 (f32_of_Z 1) (f32_of_Z 2) (f32_of_Z (-3))]]
              [mk3 (f32_of_Z 0) (f32_of_Z 0) (f32_of_Z 3)] eq_refl)
    as [joint_proj [Hp He]].
  exists joint_proj. split; [exact Hp|].
  destruct (He 0 0 (mk3 (f32_of_Z 1) (f32_of_Z 2) (f32_of_Z (-3)))
              (mk3 (f32_of_Z 0) (f32_of_Z 0) (f32_of_Z 3))
              eq_refl eq_refl eq_refl) as [_ [_ [_ E]]].
  rewrite E. vm_compute. reflexivity.
Defined.

(** C5, as the design states it, fails: the joint (2^120, 0, 0), all
    of whose coordinates are finite, seen with the translation
    (0, 0, 0) has depth zero, and its projected x is +infinity. *)
Lemma projection_at_zero_depth_overflows :
  is_finite (S754_finite false 8388608 97) = true /\
  is_zero (f32_add (f32_of_Z 0) (f32_of_Z 0)) = true /\
  @project F32 demo_cfg
    [[mk3 (S754_finite false 8388608 97) (f32_of_Z 0) (f32_of_Z 0)]]
    [mk3 (f32_of_Z 0) (f32_of_Z 0) (f32_of_Z 0)]
  = Ok [[(S754_infinity false, f32_of_Z 256)]] /\
  is_finite (S754_infinity false) = false.
Proof.
  split; [reflexivity|]. split; [reflexivity|].
  split; [vm_compute; reflexivity | reflexivity].
Qed.

(** * The rotation converter, from its design *)

Section RotationConverter.
Local Open Scope R_scope.

(** ** Vectors of three real numbers *)

(** Modelled from the spec: the inner product a.b of two 3-vectors. *)
Definition dot3 (a b : V3 R) : R := c0 a * c0 b + c1 a * c1 b + c2 a * c2 b.

(** Modelled from the spec: the multiple w a of a 3-vector. *)
Definition scale3 (w : R) (a : V3 R) : V3 R := mk3 (w * c0 a) (w * c1 a) (w * c2 a).

(** Modelled from the spec: the difference a - b of two 3-vectors. *)
Definition sub3 (a b : V3 R) : V3 R := mk3 (c0 a - c0 b) (c1 a - c1 b) (c2 a - c2 b).

(** Modelled from the spec: the cross product a x b. *)
Definition cross3 (a b : V3 R) : V3 R :=
  mk3 (c1 a * c2 b - c2 a * c1 b)
      (c2 a * c0 b - c0 a * c2 b)
      (c0 a * c1 b - c1 a * c0 b).

(** Modelled from the spec: the length of a 3-vector. *)
Definition norm3 (a : V3 R) : R := sqrt (dot3 a a).

(** Modelled from the spec: a matrix R = [b1 b2 b3], given by its
    three columns. *)
Definition mat3 : Type := (V3 R * V3 R * V3 R)%type.

(** Modelled from the spec: the rotation matrix constructed from a
    known axis-angle: the rotation of angle [theta] about the unit axis
    [n] (Rodrigues' formula cos I + sin [n]x + (1 - cos) n n^T), by
    columns. *)
Definition rodrigues (theta : R) (n : V3 R) : mat3 :=
  let c := cos theta in
  let s := sin theta in
  let nx := c0 n in
  let ny := c1 n in
  let nz := c2 n in
  (mk3 (c + (1 - c) * nx * nx) ((1 - c) * nx * ny + s * nz) ((1 - c) * nx * nz - s * ny),
   mk3 ((1 - c) * nx * ny - s * nz) (c + (1 - c) * ny * ny) ((1 - c) * ny * nz + s * nx),
   mk3 ((1 - c) * nx * nz + s * ny) ((1 - c) * ny * nz - s * nx) (c + (1 - c) * nz * nz)).

(** ** The converter *)

(** Modelled from the spec: normalize(a) is a divided by its length; it
    is undefined on the zero vector, where the converter fails with
    NumericalDegeneracy. *)
Definition normalize (a : V3 R) : Result (V3 R) :=
  if Req_dec_T (norm3 a) 0 then Raise NumericalDegeneracy
  else Ok (scale3 (/ norm3 a) a).

(** Modelled from the spec: Gram-Schmidt on the two 3-vectors (a1, a2)
    of a 6-vector: b1 = normalize(a1), b2 = normalize(a2 - (b1.a2) b1),
    b3 = b1 x b2, and R = [b1 b2 b3] by columns. *)
Definition gram_schmidt (a1 a2 : V3 R) : Result mat3 :=
  b1 <- normalize a1 ;;
  b2 <- normalize (sub3 a2 (scale3 (dot3 b1 a2) b1)) ;;
  Ok (b1, b2, cross3 b1 b2).

(** Modelled from the spec: trace(R), the sum of the diagonal. *)
Definition trace (m : mat3) : R :=
  let '(b1, b2, b3) := m in c0 b1 + c1 b2 + c2 b3.

(** Modelled from the spec: the vector of the skew-symmetric matrix
    (R - R^T)/2: ((R32 - R23)/2, (R13 - R31)/2, (R21 - R12)/2). *)
Definition skew_part (m : mat3) : V3 R :=
  let '(b1, b2, b3) := m in
  mk3 ((c2 b2 - c1 b3) / 2) ((c0 b3 - c2 b1) / 2) ((c1 b1 - c0 b2) / 2).

(** Modelled from the spec: the matrix logarithm: the angle is
    arccos((trace(R) - 1)/2), the axis is the skew-symmetric part of
    (R - R^T)/2, normalized, and the result is the angle times the
    axis.  In the degenerate case, an angle of at most the tolerance
    [tol], the result is the zero vector and nothing is normalized. *)
Definition matrix_to_axis_angle (tol : R) (m : mat3) : Result (V3 R) :=
  let angle := acos ((trace m - 1) / 2) in
  if Rle_dec angle tol then Ok (mk3 0 0 0)
  else axis <- normalize (skew_part m) ;; Ok (scale3 angle axis).

(** Modelled from the spec: the rotation converter on one 6-vector,
    given as the two 3-vectors (a1, a2) it is treated as. *)
Definition spec_rot6d_to_axis_angle (tol : R) (a1 a2 : V3 R) : Result (V3 R) :=
  m <- gram_schmidt a1 a2 ;; matrix_to_axis_angle tol m.

(** ** The round trip *)

Lemma normalize_unit (a : V3 R) : dot3 a a = 1 -> normalize a = Ok a.
Proof.
  intros H. unfold normalize, norm3. rewrite H, sqrt_1.
  destruct (Req_dec_T 1 0) as [E|_]; [lra|].
  destruct a as [x y z]. unfold scale3. cbn [c0 c1 c2].
  f_equal. f_equal; field.
Qed.

Section RoundTrip.
Variables (theta : R) (n : V3 R).
Hypothesis Hn : dot3 n n = 1.

Lemma sin_cos_one : sin theta * sin theta + cos theta * cos theta = 1.
Proof. pose proof (sin2_cos2 theta) as H. unfold Rsqr in H. exact H. Qed.

(** The first two columns of a rotation are orthonormal: Gram-Schmidt
    returns them, and their cross product is the third column. *)
Lemma gram_schmidt_rodrigues :
  gram_schmidt (fst (fst (rodrigues theta n))) (snd (fst (rodrigues theta n)))
  = Ok (rodrigues theta n).
Proof.
  pose proof sin_cos_one as Hsc.
  destruct n as [nx ny nz]. unfold dot3 in Hn. cbn [c0 c1 c2] in Hn.
  unfold gram_schmidt, rodrigues. cbn [fst snd c0 c1 c2].
  rewrite normalize_unit by (unfold dot3; cbn [c0 c1 c2]; nsatz).
  cbn [bind].
  assert (D : dot3 (mk3 (cos theta + (1 - cos theta) * nx * nx)
                 ((1 - cos theta) * nx * ny + sin theta * nz)
                 ((1 - cos theta) * nx * nz - sin theta * ny))
              (mk3 ((1 - cos theta) * nx * ny - sin theta * nz)
                 (cos theta + (1 - cos theta) * ny * ny)
                 ((1 - cos theta) * ny * nz + sin theta * nx)) = 0)
    by (unfold dot3; cbn [c0 c1 c2]; nsatz).
  rewrite D.
  replace (sub3 _ (scale3 0 _))
    with (mk3 ((1 - cos theta) * nx * ny - sin theta * nz)
                 (cos theta + (1 - cos theta) * ny * ny)
                 ((1 - cos theta) * ny * nz + sin theta * nx))
    by (unfold sub3, scale3; cbn [c0 c1 c2]; f_equal; ring).
  rewrite normalize_unit by (unfold dot3; cbn [c0 c1 c2]; nsatz).
  cbn [bind]. unfold cross3. cbn [c0 c1 c2]. clear D.
  assert (E0 : ((1 - cos theta) * nx * ny + sin theta * nz) *
               ((1 - cos theta) * ny * nz + sin theta * nx) -
               ((1 - cos theta) * nx * nz - sin theta * ny) *
               (cos theta + (1 - cos theta) * ny * ny)
               = (1 - cos theta) * nx * nz + sin theta * ny) by nsatz.
  assert (E1 : ((1 - cos theta) * nx * nz - sin theta * ny) *
               ((1 - cos theta) * nx * ny - sin theta * nz) -
               (cos theta + (1 - cos theta) * nx * nx) *
               ((1 - cos theta) * ny * nz + sin theta * nx)
               = (1 - cos theta) * ny * nz - sin theta * nx) by nsatz.
  assert (E2 : (cos theta + (1 - cos theta) * nx * nx) *
               (cos theta + (1 - cos theta) * ny * ny) -
               ((1 - cos theta) * nx * ny + sin theta * nz) *
               ((1 - cos theta) * nx * ny - sin theta * nz)
               = cos theta + (1 - cos theta) * nz * nz) by nsatz.
  rewrite E0, E1, E2. reflexivity.
Qed.

Lemma trace_rodrigues : (trace (rodrigues theta n) - 1) / 2 = cos theta.
Proof.
  destruct n as [nx ny nz]. unfold dot3 in Hn. cbn [c0 c1 c2] in Hn.
  unfold trace, rodrigues. cbn [c0 c1 c2].
  assert (E : cos theta + (1 - cos theta) * nx * nx
              + (cos theta + (1 - cos theta) * ny * ny)
              + (cos theta + (1 - cos theta) * nz * nz) = 1 + 2 * cos theta)
    by nsatz.
  rewrite E. field.
Qed.

Lemma skew_rodrigues : skew_part (rodrigues theta n) = scale3 (sin theta) n.
Proof.
  unfold skew_part, rodrigues, scale3. cbn [c0 c1 c2]. f_equal; field.
Qed.

Lemma dot3_scaled (w : R) : dot3 (scale3 w n) (scale3 w n) = w * w.
Proof.
  destruct n as [nx ny nz]. unfold dot3, scale3 in *. cbn [c0 c1 c2] in *.
  nsatz.
Qed.

Lemma normalize_scaled : 0 < sin theta -> normalize (scale3 (sin theta) n) = Ok n.
Proof.
  intros Hs. unfold normalize, norm3.
  rewrite dot3_scaled, sqrt_square by lra.
  destruct (Req_dec_T (sin theta) 0) as [Z|_]; [lra|].
  destruct n as [nx ny nz]. unfold scale3. cbn [c0 c1 c2].
  f_equal. f_equal; field; lra.
Qed.

Lemma norm_scaled : 0 <= theta -> norm3 (scale3 theta n) = theta.
Proof.
  intros H. unfold norm3. rewrite dot3_scaled. apply sqrt_square. exact H.
Qed.

End RoundTrip.

(** C7, for the converter as the design describes it, over the real
    numbers and with a tolerance [tol] >= 0 for the degenerate case.
    Take the rotation matrix of an angle theta about a unit axis n and
    hand its first two columns to the converter.  For tol < theta < pi
    the converter returns theta times n: the angle and the axis are
    reproduced exactly.  For 0 <= theta <= tol it returns the zero
    vector, which is within tol of theta times n, and it raises
    nothing: no vector is normalized in that case. *)
Theorem rot6d_round_trip (tol theta : R) (n : V3 R) :
  0 <= tol -> dot3 n n = 1 ->
  (tol < theta -> theta < PI ->
   spec_rot6d_to_axis_angle tol (fst (fst (rodrigues theta n)))
                                (snd (fst (rodrigues theta n)))
   = Ok (scale3 theta n)) /\
  (0 <= theta <= tol -> theta <= PI ->
   spec_rot6d_to_axis_angle tol (fst (fst (rodrigues theta n)))
                                (snd (fst (rodrigues theta n)))
   = Ok (mk3 0 0 0) /\
   norm3 (sub3 (scale3 theta n) (mk3 0 0 0)) <= tol).
Proof.
  intros Htol Hn.
  unfold spec_rot6d_to_axis_angle.
  rewrite (@gram_schmidt_rodrigues theta n Hn). cbn [bind].
  unfold matrix_to_axis_angle.
  rewrite (@trace_rodrigues theta n Hn).
  split.
  - intros H1 H2.
    rewrite acos_cos by lra.
    destruct (Rle_dec theta tol) as [L|_]; [lra|].
    rewrite skew_rodrigues.
    rewrite (@normalize_scaled theta n Hn) by (apply sin_gt_0; lra).
    reflexivity.
  - intros [H0 H1] H2.
    rewrite acos_cos by lra.
    destruct (Rle_dec theta tol) as [_|N]; [|lra].
    split; [reflexivity|].
    replace (sub3 (scale3 theta n) (mk3 0 0 0)) with (scale3 theta n)
      by (destruct n; unfold sub3, scale3; cbn [c0 c1 c2]; f_equal; ring).
    rewrite (@norm_scaled theta n Hn H0). exact H1.
Qed.

Lemma rot6d_round_trip_witness :
  (0 < PI / 2 -> PI / 2 < PI ->
   spec_rot6d_to_axis_angle 0 (fst (fst (rodrigues (PI / 2) (mk3 0 0 1))))
                              (snd (fst (rodrigues (PI / 2) (mk3 0 0 1))))
   = Ok (scale3 (PI / 2) (mk3 0 0 1))) /\
  (0 <= PI / 2 <= 0 -> PI / 2 <= PI ->
   spec_rot6d_to_axis_angle 0 (fst (fst (rodrigues (PI / 2) (mk3 0 0 1))))
                              (snd (fst (rodrigues (PI / 2) (mk3 0 0 1))))
   = Ok (mk3 0 0 0) /\
   norm3 (sub3 (scale3 (PI / 2) (mk3 0 0 1)) (mk3 0 0 0)) <= 0).
Proof.
  apply (@rot6d_round_trip 0 (PI / 2) (mk3 0 0 1)).
  - lra.
  - unfold dot3. cbn [c0 c1 c2]. ring.
Defined.

End RotationConverter.
